(** * Platform support layer of the EEE158 module 06 firmware

    A shallow embedding of [src/platform/gpio.c] and of the interfaces of
    [src/platform.h]: the pushbutton event capture (edge-interrupt handler
    and read-and-clear consumer), the blink sequencer driven by the
    free-running counter of TC0, and the one-time initialisation sequence.

    The C code talks to memory-mapped peripherals.  Every access to a
    peripheral register is a step of a small state-and-trace monad: it
    updates a model of the device and emits an event, so that properties
    about which registers a routine touches, and in which order, can be
    stated on the emitted trace. *)

From Stdlib Require Import ZArith List Bool Lia Sorted.
From Stdlib Require Import PrimFloat Uint63.
Import ListNotations.
Local Open Scope Z_scope.
#[local] Set Warnings "-inexact-float".

(** ** Machine integers *)

(** Value of a [w]-bit unsigned object after a store of [x]. *)
Definition wrap (w x : Z) : Z := x mod 2 ^ w.
Definition u16 : Z -> Z := wrap 16.
Definition u32 : Z -> Z := wrap 32.

(** [(1 << n)] *)
Definition bit (n : Z) : Z := Z.shiftl 1 n.

(** Conversion of a non-negative [int] to [double]; exact on the 16-bit
    values that the counter and compare registers hold. *)
Definition dbl (z : Z) : float := PrimFloat.of_uint63 (Uint63.of_Z z).

(** ** platform.h: pushbutton event masks *)

Definition PLATFORM_PB_ONBOARD_PRESS : Z := 0x0001.
Definition PLATFORM_PB_ONBOARD_RELEASE : Z := 0x0002.
Definition PLATFORM_PB_ONBOARD_MASK : Z :=
  Z.lor PLATFORM_PB_ONBOARD_PRESS PLATFORM_PB_ONBOARD_RELEASE.

(** Modelled from the spec: the enumeration behind [currentSetting], which
    [blink_settings.h] declares; the five blink modes of the sequencer. *)
Inductive blink_setting : Type := OFF | SLOW | MEDIUM | FAST | ON.

(** ** Peripheral registers *)

Inductive reg : Type :=
| GCLK_PCHCTRL (n : nat)
| EIC_CTRLA | EIC_SYNCBUSY | EIC_DPRESCALER | EIC_PINSTATE | EIC_INTFLAG
| EIC_DEBOUNCEN | EIC_CONFIG0 | EIC_INTENSET
| EVSYS_CTRLA
| PORT_DIR | PORT_DIRSET | PORT_DIRCLR
| PORT_OUT | PORT_OUTSET | PORT_OUTCLR
| PORT_PINCFG (n : nat) | PORT_PMUX (n : nat)
| TC_CTRLBSET | TC_SYNCBUSY | TC_COUNT | TC_CC (n : nat).

Definition reg_eq_dec (a b : reg) : {a = b} + {a <> b}.
Proof. decide equality; apply Nat.eq_dec. Defined.

Inductive irq : Type := EIC_EXTINT_2_IRQn | SysTick_IRQn.

Definition irq_eqb (a b : irq) : bool :=
  match a, b with
  | EIC_EXTINT_2_IRQn, EIC_EXTINT_2_IRQn => true
  | SysTick_IRQn, SysTick_IRQn => true
  | _, _ => false
  end.

(** The routines that [platform_init] calls, in no particular order. *)
Inductive routine : Type :=
| R_raise_perf_level | R_EVSYS_init | R_EIC_init_early | R_TC0_Init
| R_PB_init | R_Emergency_Pins_Init | R_blink_init | R_platform_usart_init
| R_EIC_init_late | R_platform_systick_init | R_NVIC_init.

(** What a routine does that can be observed from outside the CPU. *)
Inductive event : Type :=
| EvRead (r : reg) (v : Z)
| EvWrite (r : reg) (v : Z)
| EvNop
| EvDMB
| EvEnableIrq
| EvNvicSetPriority (i : irq) (p : Z)
| EvNvicEnableIRQ (i : irq)
| EvCall (f : routine).

(** ** Machine state *)

Record state : Type := mkState {
  (** value each register holds *)
  regs : reg -> Z;
  (** for a SYNCBUSY register: how many further polls still report busy *)
  sync : reg -> nat;
  (** polls a freshly started synchronisation takes *)
  sync_latency : nat;
  (** free-running counter: the value latched by the n-th read of COUNT *)
  tc_count : nat -> Z;
  (** number of reads of COUNT so far *)
  tc_reads : nat;
  (** PRIMASK: interrupts masked at the CPU *)
  primask : bool;
  nvic_enabled : irq -> bool;
  nvic_priority : irq -> Z;
  (** [static volatile uint16_t pb_press_mask] *)
  pb_press_mask : Z;
  (** [currentSetting] of blink_settings.h *)
  currentSetting : blink_setting
}.

Definition set_regs (f : reg -> Z) (s : state) : state :=
  mkState f (sync s) (sync_latency s) (tc_count s) (tc_reads s) (primask s)
          (nvic_enabled s) (nvic_priority s) (pb_press_mask s) (currentSetting s).

Definition set_sync (f : reg -> nat) (s : state) : state :=
  mkState (regs s) f (sync_latency s) (tc_count s) (tc_reads s) (primask s)
          (nvic_enabled s) (nvic_priority s) (pb_press_mask s) (currentSetting s).

Definition set_tc_reads (n : nat) (s : state) : state :=
  mkState (regs s) (sync s) (sync_latency s) (tc_count s) n (primask s)
          (nvic_enabled s) (nvic_priority s) (pb_press_mask s) (currentSetting s).

Definition set_primask (b : bool) (s : state) : state :=
  mkState (regs s) (sync s) (sync_latency s) (tc_count s) (tc_reads s) b
          (nvic_enabled s) (nvic_priority s) (pb_press_mask s) (currentSetting s).

Definition set_nvic_enabled (f : irq -> bool) (s : state) : state :=
  mkState (regs s) (sync s) (sync_latency s) (tc_count s) (tc_reads s) (primask s)
          f (nvic_priority s) (pb_press_mask s) (currentSetting s).

Definition set_nvic_priority (f : irq -> Z) (s : state) : state :=
  mkState (regs s) (sync s) (sync_latency s) (tc_count s) (tc_reads s) (primask s)
          (nvic_enabled s) f (pb_press_mask s) (currentSetting s).

Definition set_pb_press_mask (m : Z) (s : state) : state :=
  mkState (regs s) (sync s) (sync_latency s) (tc_count s) (tc_reads s) (primask s)
          (nvic_enabled s) (nvic_priority s) m (currentSetting s).

Definition set_currentSetting (b : blink_setting) (s : state) : state :=
  mkState (regs s) (sync s) (sync_latency s) (tc_count s) (tc_reads s) (primask s)
          (nvic_enabled s) (nvic_priority s) (pb_press_mask s) b.

(** Point update of a register-indexed table. *)
Definition upd {A : Type} (r : reg) (v : A) (f : reg -> A) : reg -> A :=
  fun r' => if reg_eq_dec r' r then v else f r'.

(** ** The monad: state, result and emitted events *)

Definition M (A : Type) : Type := state -> A * state * list event.

Definition ret {A : Type} (a : A) : M A := fun s => (a, s, []).

Definition bind {A B : Type} (m : M A) (k : A -> M B) : M B :=
  fun s =>
    let r1 := m s in
    let r2 := k (fst (fst r1)) (snd (fst r1)) in
    (fst (fst r2), snd (fst r2), snd r1 ++ snd r2).

Notation "x <- m ;; k" := (bind m (fun x => k))
  (at level 61, m at next level, right associativity).
Notation "m ;; k" := (bind m (fun _ => k))
  (at level 61, right associativity).

Definition result {A : Type} (m : M A) (s : state) : A := fst (fst (m s)).
Definition exec {A : Type} (m : M A) (s : state) : state := snd (fst (m s)).
Definition events {A : Type} (m : M A) (s : state) : list event := snd (m s).

Definition emit (e : event) : M unit := fun s => (tt, s, [e]).
Definition modify (f : state -> state) : M unit := fun s => (tt, f s, []).
Definition gets {A : Type} (f : state -> A) : M A := fun s => (f s, s, []).

(** ** Device model

    Registers are plain storage unless listed here.
    - PORT: a write to OUTSET/DIRSET sets, and a write to OUTCLR/DIRCLR
      clears, the written bits of OUT/DIR; all three names read the latch.
    - EIC INTFLAG is write-one-to-clear; INTENSET sets bits.
    - CTRLA.SWRST (bit 0) of EIC and EVSYS is a strobe and reads back 0.
    - TC0 COUNT is 16 bits wide and returns the next sample of the counter.
    - A write to a synchronised register (EIC CTRLA; TC0 CTRLBSET, CC) makes
      the matching SYNCBUSY register report its busy bit for the next
      [sync_latency] polls; after that SYNCBUSY reads 0. *)

Definition start_sync (sb : reg) (bits : Z) (s : state) : state :=
  set_sync (upd sb (sync_latency s) (sync s)) (set_regs (upd sb bits (regs s)) s).

Definition dev_write (r : reg) (v : Z) (s : state) : state :=
  match r with
  | PORT_OUTSET => set_regs (upd PORT_OUT (Z.lor (regs s PORT_OUT) v) (regs s)) s
  | PORT_OUTCLR => set_regs (upd PORT_OUT (Z.land (regs s PORT_OUT) (Z.lnot v)) (regs s)) s
  | PORT_DIRSET => set_regs (upd PORT_DIR (Z.lor (regs s PORT_DIR) v) (regs s)) s
  | PORT_DIRCLR => set_regs (upd PORT_DIR (Z.land (regs s PORT_DIR) (Z.lnot v)) (regs s)) s
  | EIC_INTFLAG => set_regs (upd EIC_INTFLAG (Z.land (regs s EIC_INTFLAG) (Z.lnot v)) (regs s)) s
  | EIC_INTENSET => set_regs (upd EIC_INTENSET (Z.lor (regs s EIC_INTENSET) v) (regs s)) s
  | EIC_CTRLA =>
      start_sync EIC_SYNCBUSY (Z.land v 3)
        (set_regs (upd EIC_CTRLA (Z.land v (Z.lnot 1)) (regs s)) s)
  | EVSYS_CTRLA => set_regs (upd EVSYS_CTRLA (Z.land v (Z.lnot 1)) (regs s)) s
  | TC_CTRLBSET =>
      start_sync TC_SYNCBUSY (bit 2)
        (set_regs (upd TC_CTRLBSET (Z.lor (regs s TC_CTRLBSET) v) (regs s)) s)
  | TC_CC n =>
      start_sync TC_SYNCBUSY (bit (6 + Z.of_nat n))
        (set_regs (upd (TC_CC n) (u16 v) (regs s)) s)
  | EIC_SYNCBUSY | TC_SYNCBUSY | EIC_PINSTATE | TC_COUNT => s
  | _ => set_regs (upd r v (regs s)) s
  end.

Definition poll_sync (sb : reg) (s : state) : Z * state :=
  match sync s sb with
  | O => (0, s)
  | S k => (regs s sb, set_sync (upd sb k (sync s)) s)
  end.

Definition dev_read (r : reg) (s : state) : Z * state :=
  match r with
  | PORT_OUTSET | PORT_OUTCLR => (regs s PORT_OUT, s)
  | PORT_DIRSET | PORT_DIRCLR => (regs s PORT_DIR, s)
  | EIC_SYNCBUSY => poll_sync EIC_SYNCBUSY s
  | TC_SYNCBUSY => poll_sync TC_SYNCBUSY s
  | TC_COUNT => (u16 (tc_count s (tc_reads s)), set_tc_reads (S (tc_reads s)) s)
  | _ => (regs s r, s)
  end.

(** [x = REG;] *)
Definition reg_read (r : reg) : M Z :=
  fun s => let p := dev_read r s in (fst p, snd p, [EvRead r (fst p)]).

(** [REG = v;] *)
Definition reg_write (r : reg) (v : Z) : M unit :=
  fun s => (tt, dev_write r v s, [EvWrite r v]).

(** [REG |= v;] and [REG &= v;] on a volatile register: a read, then a write. *)
Definition reg_or (r : reg) (v : Z) : M unit :=
  x <- reg_read r ;; reg_write r (Z.lor x v).

Definition reg_and (r : reg) (v : Z) : M unit :=
  x <- reg_read r ;; reg_write r (Z.land x v).

(** [while (busy (REG)) body;]  The recursion is on the number of polls
    for which the device still reports busy; [spin_idle] below shows that
    the loop is left because the condition was read false. *)
Fixpoint spin (r : reg) (busy : Z -> bool) (body : M unit) (n : nat) : M unit :=
  v <- reg_read r ;;
  if busy v then
    body ;; match n with O => ret tt | S k => spin r busy body k end
  else ret tt.

Definition spin_on (r : reg) (busy : Z -> bool) (body : M unit) : M unit :=
  fun s => spin r busy body (sync s r) s.

(** [while (REG & mask);] *)
Definition busy_wait (r : reg) (mask : Z) : M unit :=
  spin_on r (fun v => negb (Z.land v mask =? 0)) (ret tt).

(** The indicator LED is PA15, active high. *)
Definition led_on (s : state) : bool := Z.testbit (regs s PORT_OUT) 15.

(** ** gpio.c: EIC, EVSYS *)

Definition EIC_init_early : M unit :=
  reg_write (GCLK_PCHCTRL 4) 0x00000042 ;;
  spin_on (GCLK_PCHCTRL 4) (fun v => Z.land v 0x00000042 =? 0) (emit EvNop) ;;
  reg_write EIC_CTRLA 0x01 ;;
  spin_on EIC_SYNCBUSY (fun v => negb (Z.land v 0x01 =? 0)) (emit EvNop) ;;
  reg_write EIC_DPRESCALER
    (Z.lor (Z.lor (Z.shiftl 0 16) (Z.shiftl 0 4)) (Z.shiftl 15 0)).

Definition EIC_init_late : M unit :=
  reg_or EIC_CTRLA 0x02 ;;
  spin_on EIC_SYNCBUSY (fun v => negb (Z.land v 0x02 =? 0)) (emit EvNop).

Definition EVSYS_init : M unit :=
  reg_write EVSYS_CTRLA 0x01 ;;
  emit EvNop ;;
  emit EvNop ;;
  emit EvNop.

(** ** gpio.c: blinking *)

Definition blink_init : M unit :=
  reg_or PORT_DIRSET (bit 15) ;;
  reg_or (PORT_PINCFG 15) (bit 1).

Definition read_count : M Z :=
  reg_write TC_CTRLBSET (Z.shiftl 0x4 5) ;;
  busy_wait TC_SYNCBUSY (bit 2) ;;
  reg_read TC_COUNT.

(** The body shared by the three timed cases of the switch, which differ
    in the compare value [cc] and in the duty factor [duty] only.  The
    counter is sampled once for each of the two comparisons. *)
Definition blink_timed (cc : Z) (duty : float) : M unit :=
  reg_write (TC_CC 0) cc ;;
  busy_wait TC_SYNCBUSY (bit 6) ;;
  c <- read_count ;;
  p <- reg_read (TC_CC 0) ;;
  (if PrimFloat.ltb (dbl c) (PrimFloat.mul (dbl p) duty)
   then reg_write PORT_OUTCLR (bit 15) else ret tt) ;;
  c' <- read_count ;;
  p' <- reg_read (TC_CC 0) ;;
  (if PrimFloat.ltb (PrimFloat.mul (dbl p') duty) (dbl c')
   then reg_write PORT_OUTSET (bit 15) else ret tt).

Definition platform_blink_modify : M unit :=
  cs <- gets currentSetting ;;
  match cs with
  | OFF => reg_write PORT_OUTCLR (bit 15)
  | SLOW => blink_timed 23438 0.9%float
  | MEDIUM => blink_timed 11719 0.8%float
  | FAST => blink_timed 7032 0.5%float
  | ON => reg_write PORT_OUTSET (bit 15)
  end.

(** ** gpio.c: pushbutton *)

(** [pb_press_mask = f (pb_press_mask);] on the 16-bit volatile. *)
Definition pb_press_mask_update (f : Z -> Z) : M unit :=
  modify (fun s => set_pb_press_mask (u16 (f (pb_press_mask s))) s).

Definition EIC_EXTINT_2_Handler : M unit :=
  pb_press_mask_update (fun m => Z.land m (Z.lnot PLATFORM_PB_ONBOARD_MASK)) ;;
  pinstate <- reg_read EIC_PINSTATE ;;
  (if Z.land pinstate (bit 2) =? 0
   then pb_press_mask_update (fun m => Z.lor m PLATFORM_PB_ONBOARD_PRESS)
   else pb_press_mask_update (fun m => Z.lor m PLATFORM_PB_ONBOARD_RELEASE)) ;;
  reg_or EIC_INTFLAG (bit 2).

Definition PB_init : M unit :=
  reg_or PORT_DIRCLR (bit 23) ;;
  reg_or (PORT_PINCFG 23) 0x7 ;;
  reg_or PORT_OUTSET (bit 0) ;;
  reg_or (PORT_PMUX 11) (Z.shiftl 0x0 4) ;;
  reg_or EIC_DEBOUNCEN (bit 2) ;;
  reg_and EIC_CONFIG0 (u32 (Z.lnot (Z.shiftl 0xF 8))) ;;
  reg_or EIC_CONFIG0 (Z.shiftl 0xB 8) ;;
  reg_write EIC_INTENSET 0x00000004.

Definition platform_pb_get_event : M Z :=
  cache <- gets pb_press_mask ;;
  modify (set_pb_press_mask 0) ;;
  ret cache.

(** ** gpio.c: NVIC, emergency pins *)

Definition __DMB : M unit := emit EvDMB.

Definition __enable_irq : M unit :=
  modify (set_primask false) ;; emit EvEnableIrq.

Definition NVIC_SetPriority (i : irq) (p : Z) : M unit :=
  modify (fun s => set_nvic_priority
                     (fun j => if irq_eqb j i then p else nvic_priority s j) s) ;;
  emit (EvNvicSetPriority i p).

Definition NVIC_EnableIRQ (i : irq) : M unit :=
  modify (fun s => set_nvic_enabled
                     (fun j => if irq_eqb j i then true else nvic_enabled s j) s) ;;
  emit (EvNvicEnableIRQ i).

Definition NVIC_init : M unit :=
  __DMB ;;
  __enable_irq ;;
  NVIC_SetPriority EIC_EXTINT_2_IRQn 3 ;;
  NVIC_SetPriority SysTick_IRQn 3 ;;
  NVIC_EnableIRQ EIC_EXTINT_2_IRQn ;;
  NVIC_EnableIRQ SysTick_IRQn.

Definition Emergency_Pins_Init : M unit :=
  reg_or (PORT_PINCFG 19) (bit 1) ;;
  reg_or PORT_DIRSET (bit 19) ;;
  reg_or PORT_OUTSET (bit 19) ;;
  reg_or (PORT_PINCFG 18) (Z.shiftl 0x7 0) ;;
  reg_or PORT_DIRSET (Z.shiftl 0 18) ;;
  reg_or PORT_OUTSET (Z.shiftl 0 18) ;;
  reg_or (PORT_PMUX 9) (Z.shiftl 0x0 0).

(** ** gpio.c: platform_init

    [raise_perf_level], [TC0_Init], [platform_usart_init] and
    [platform_systick_init] are defined in other translation units.  Their
    effect on the machine is a parameter; since [pb_press_mask] has
    internal linkage they cannot name it, and it keeps its value across
    such a call. *)

Section Platform.

Variable extern : routine -> state -> state.

Definition call_extern (f : routine) : M unit :=
  emit (EvCall f) ;;
  modify (fun s => set_pb_press_mask (pb_press_mask s) (extern f s)).

Definition call (f : routine) (body : M unit) : M unit :=
  emit (EvCall f) ;; body.

Definition platform_init : M unit :=
  call_extern R_raise_perf_level ;;
  call R_EVSYS_init EVSYS_init ;;
  call R_EIC_init_early EIC_init_early ;;
  call_extern R_TC0_Init ;;
  call R_PB_init PB_init ;;
  call R_Emergency_Pins_Init Emergency_Pins_Init ;;
  call R_blink_init blink_init ;;
  call_extern R_platform_usart_init ;;
  call R_EIC_init_late EIC_init_late ;;
  call_extern R_platform_systick_init ;;
  call R_NVIC_init NVIC_init.

End Platform.

(** ** Environment *)

(** The machine after reset, before [platform_init]: registers cleared,
    nothing pending, interrupts masked, statics zero-initialised.  The
    counter trace and the synchronisation latency are the device's. *)
Definition reset_state (latency : nat) (count : nat -> Z) : state :=
  mkState (fun _ => 0) (fun _ => O) latency count O true
          (fun _ => false) (fun _ => 0) 0 OFF.

(** A debounced edge on PA23 (active low): the EIC presents the new pin
    level in PINSTATE bit 2 and raises INTFLAG bit 2. *)
Definition pin_edge (pressed : bool) (s : state) : state :=
  set_regs
    (upd EIC_PINSTATE
       (if pressed then Z.land (regs s EIC_PINSTATE) (Z.lnot (bit 2))
        else Z.lor (regs s EIC_PINSTATE) (bit 2))
       (upd EIC_INTFLAG (Z.lor (regs s EIC_INTFLAG) (bit 2)) (regs s))) s.

(** The edge followed by the interrupt it requests. *)
Definition button_event (pressed : bool) : M unit :=
  modify (pin_edge pressed) ;; EIC_EXTINT_2_Handler.

Definition press_event : M unit := button_event true.
Definition release_event : M unit := button_event false.


(** ** Reachable states

    The ways the machine moves on: a button edge with its interrupt, an
    invocation of the handler at whatever level the pin has, the routines
    of gpio.c, and anything else (other translation units, the hardware),
    which cannot name the file-local [pb_press_mask]. *)

Section Reachability.

Variable extern : routine -> state -> state.

Inductive step : state -> state -> Prop :=
| step_button (pressed : bool) (s : state) : step s (exec (button_event pressed) s)
| step_handler (s : state) : step s (exec EIC_EXTINT_2_Handler s)
| step_get_event (s : state) : step s (exec platform_pb_get_event s)
| step_blink (s : state) : step s (exec platform_blink_modify s)
| step_init (s : state) : step s (exec (platform_init extern) s)
| step_outside (s s' : state) : pb_press_mask s' = pb_press_mask s -> step s s'.

Inductive reachable : state -> Prop :=
| reachable_reset (latency : nat) (count : nat -> Z) :
    reachable (reset_state latency count)
| reachable_step (s s' : state) : reachable s -> step s s' -> reachable s'.

End Reachability.

(** ** Vocabulary of the properties *)

(** The event bit that the handler records for a sampled PINSTATE. *)
Definition event_flag (pinstate : Z) : Z :=
  if Z.land pinstate (bit 2) =? 0
  then PLATFORM_PB_ONBOARD_PRESS else PLATFORM_PB_ONBOARD_RELEASE.

(** A mask with no bit outside PRESS | RELEASE. *)
Definition mask_within (m : Z) : Prop :=
  Z.land m (Z.lnot PLATFORM_PB_ONBOARD_MASK) = 0.

(** The three modes whose output depends on the counter. *)
Definition timed (b : blink_setting) : bool :=
  match b with SLOW | MEDIUM | FAST => true | OFF | ON => false end.

(** Compare value and duty factor that [platform_blink_modify] uses in a
    timed mode. *)
Definition blink_period (b : blink_setting) : Z :=
  match b with SLOW => 23438 | MEDIUM => 11719 | FAST => 7032 | OFF | ON => 0 end.

Definition blink_duty (b : blink_setting) : float :=
  match b with
  | SLOW => 0.9%float | MEDIUM => 0.8%float | FAST => 0.5%float
  | OFF | ON => 0%float
  end.

(** The duty factor as the fraction of ten that its decimal literal denotes. *)
Definition duty_tenths (b : blink_setting) : Z :=
  match b with SLOW => 9 | MEDIUM => 8 | FAST => 5 | OFF | ON => 0 end.

(** The threshold as the code computes it, in double precision. *)
Definition blink_threshold (b : blink_setting) : float :=
  PrimFloat.mul (dbl (blink_period b)) (blink_duty b).

(** The level that the spec assigns to a counter value [c] in a timed
    mode: active exactly when [c] exceeds the threshold. *)
Definition spec_level (b : blink_setting) (c : Z) : bool :=
  PrimFloat.ltb (blink_threshold b) (dbl c).

(** The level of a mode that does not depend on the counter. *)
Definition forced_level (b : blink_setting) : bool :=
  match b with ON => true | _ => false end.

(** Output latch after the two conditional writes of a timed case. *)
Definition out_after (lt gt : bool) (o : Z) : Z :=
  let o1 := if lt then Z.land o (Z.lnot (bit 15)) else o in
  if gt then Z.lor o1 (bit 15) else o1.

Definition is_out_write (e : event) : bool :=
  match e with
  | EvWrite PORT_OUTSET _ | EvWrite PORT_OUTCLR _ => true
  | _ => false
  end.

Definition is_tc_reg (r : reg) : bool :=
  match r with
  | TC_CTRLBSET | TC_SYNCBUSY | TC_COUNT | TC_CC _ => true
  | _ => false
  end.

(** An access to a register of the timer/counter. *)
Definition timer_access (e : event) : bool :=
  match e with
  | EvRead r _ | EvWrite r _ => is_tc_reg r
  | _ => false
  end.

(** Events a polling loop on [r] may emit. *)
Definition poll_event (r : reg) (e : event) : Prop :=
  (exists v, e = EvRead r v) \/ e = EvNop.

(** A register access or a nop: what the configuration routines emit. *)
Definition bus_event (e : event) : Prop :=
  match e with
  | EvRead _ _ | EvWrite _ _ | EvNop => True
  | _ => False
  end.

(** What the blink logic observes of a state [s] reached from [s0]: the
    output latch, the compare register, how far the counter trace has been
    consumed; the counter trace and the globals are those of [s0]. *)
Definition stage (s0 s : state) (o p : Z) (n : nat) : Prop :=
  regs s PORT_OUT = o /\ regs s (TC_CC 0) = p /\ tc_reads s = n
  /\ tc_count s = tc_count s0
  /\ pb_press_mask s = pb_press_mask s0
  /\ currentSetting s = currentSetting s0.

(** [p] holds of [lo], [lo + 1], ..., [lo + n - 1]. *)
Fixpoint range_all (n : nat) (lo : Z) (p : Z -> bool) : bool :=
  match n with
  | O => true
  | S k => p lo && range_all k (lo + 1) p
  end.

(** On the counter value [c], the double-precision comparisons of the code
    against the threshold give what the exact comparisons of [10 * c]
    against [tenths * period] give. *)
Definition float_agrees (b : blink_setting) (c : Z) : bool :=
  Bool.eqb (PrimFloat.ltb (dbl c) (blink_threshold b))
           (10 * c <? duty_tenths b * blink_period b)
  && Bool.eqb (PrimFloat.ltb (blink_threshold b) (dbl c))
              (duty_tenths b * blink_period b <? 10 * c)
  && Bool.eqb (PrimFloat.eqb (dbl c) (blink_threshold b))
              (10 * c =? duty_tenths b * blink_period b).




(** A computation that leaves [pb_press_mask] as it found it. *)
Definition keeps_mask {A : Type} (m : M A) : Prop :=
  forall s, pb_press_mask (exec m s) = pb_press_mask s.

(** A computation that emits register accesses and nops only. *)
Definition only_bus {A : Type} (m : M A) : Prop :=
  forall s, Forall bus_event (events m s).

(** ** TickClock (platform.h) *)

Module TickClock.

Record platform_timespec_t : Type := mkTimespec {
  nr_sec : Z;
  nr_nsec : Z
}.

Definition NSEC_PER_SEC : Z := 1000000000.

(** The seconds field is a [uint32_t]: the tick counter wraps after this
    many seconds. *)
Definition SEC_WRAP : Z := 4294967296.

(** One full period of the counter, in nanoseconds. *)
Definition PERIOD_NSEC : Z := 4294967296000000000.

(** A tick as the header requires it: both fields 32 bits wide and the
    nanoseconds on [0, 999999999]. *)
Definition valid (t : platform_timespec_t) : Prop :=
  0 <= nr_sec t < SEC_WRAP /\ 0 <= nr_nsec t <= 999999999.

Definition to_nsec (t : platform_timespec_t) : Z :=
  nr_sec t * NSEC_PER_SEC + nr_nsec t.

(** Modelled from the spec: [platform_tick_delta], declared in platform.h
    and defined in a translation unit that is not part of the sources at
    hand.  It computes [lhs - rhs], normalising a nanosecond borrow across
    the second boundary, and corrects for one wraparound: when [lhs]
    appears earlier than [rhs] the difference is taken as if the counter
    had rolled over once. *)
Definition platform_tick_delta (lhs rhs : platform_timespec_t) : platform_timespec_t :=
  let borrow := nr_nsec lhs <? nr_nsec rhs in
  let nsec := if borrow then nr_nsec lhs + NSEC_PER_SEC - nr_nsec rhs
              else nr_nsec lhs - nr_nsec rhs in
  let sec := nr_sec lhs - nr_sec rhs - (if borrow then 1 else 0) in
  mkTimespec (if sec <? 0 then sec + SEC_WRAP else sec) nsec.

(** Field-wise subtraction in 32-bit unsigned arithmetic, with neither
    borrow nor wraparound handling. *)
Definition naive_delta (lhs rhs : platform_timespec_t) : platform_timespec_t :=
  mkTimespec (u32 (nr_sec lhs - nr_sec rhs)) (u32 (nr_nsec lhs - nr_nsec rhs)).

End TickClock.

(** ** AsyncSerialChannel (platform.h) *)

Module SerialChannel.

(** [platform_usart_tx_bufdesc_t]: a fragment, its bytes and its length. *)
Record platform_usart_tx_bufdesc_t : Type := mkTxDesc {
  buf : list Z;
  len : Z
}.

(** The transmit side of the channel: the fragment list in flight, if any. *)
Record channel : Type := mkChannel {
  tx_inflight : option (list platform_usart_tx_bufdesc_t)
}.

Definition idle : channel := mkChannel None.

(** Modelled from the spec: [platform_usart_cdc_tx_busy], declared in
    platform.h and defined outside the sources at hand; true while a
    transmission is outstanding. *)
Definition platform_usart_cdc_tx_busy (ch : channel) : bool :=
  match tx_inflight ch with Some _ => true | None => false end.

(** Modelled from the spec: [platform_usart_cdc_tx_async], declared in
    platform.h and defined outside the sources at hand; rejected if a
    transmission is already in progress, otherwise the fragment list is
    accepted and handed to the hardware engine. *)
Definition platform_usart_cdc_tx_async
    (desc : list platform_usart_tx_bufdesc_t) (ch : channel) : bool * channel :=
  if platform_usart_cdc_tx_busy ch then (false, ch)
  else (true, mkChannel (Some desc)).

(** Modelled from the spec: [platform_usart_cdc_tx_abort], declared in
    platform.h and defined outside the sources at hand; stops any
    transmission in progress, after which the channel is available. *)
Definition platform_usart_cdc_tx_abort (ch : channel) : channel := mkChannel None.

(** Modelled from the spec: completion of the transmission in flight, as
    the serial engine signals it; the channel is available afterwards. *)
Definition tx_complete (ch : channel) : channel := mkChannel None.

End SerialChannel.

(** ** Vocabulary of the further properties *)

(** A run of button events, each an edge followed by its interrupt. *)
Fixpoint button_events (l : list bool) : M unit :=
  match l with
  | [] => ret tt
  | pressed :: l' => button_event pressed ;; button_events l'
  end.

(** The event bit of a button event. *)
Definition flag_of (pressed : bool) : Z :=
  if pressed then PLATFORM_PB_ONBOARD_PRESS else PLATFORM_PB_ONBOARD_RELEASE.

(** The registers [platform_blink_modify] may change. *)
Definition blink_scratch (r : reg) : bool :=
  match r with
  | PORT_OUT | TC_CC O | TC_CTRLBSET | TC_SYNCBUSY => true
  | _ => false
  end.

(** A write to a control or configuration register of the EIC. *)
Definition is_eic_write (e : event) : bool :=
  match e with
  | EvWrite EIC_CTRLA _ | EvWrite EIC_DPRESCALER _ | EvWrite EIC_DEBOUNCEN _
  | EvWrite EIC_CONFIG0 _ | EvWrite EIC_INTENSET _ => true
  | _ => false
  end.

(** A poll of a SYNCBUSY register. *)
Definition is_sync_poll (e : event) : Prop :=
  exists r v, e = EvRead r v /\ (r = EIC_SYNCBUSY \/ r = TC_SYNCBUSY).




(** * Properties *)

(** ** Running the monad *)

Lemma result_bind {A B : Type} (m : M A) (k : A -> M B) (s : state) :
  result (bind m k) s = result (k (result m s)) (exec m s).
Proof. reflexivity. Qed.

Lemma exec_bind {A B : Type} (m : M A) (k : A -> M B) (s : state) :
  exec (bind m k) s = exec (k (result m s)) (exec m s).
Proof. reflexivity. Qed.

Lemma events_bind {A B : Type} (m : M A) (k : A -> M B) (s : state) :
  events (bind m k) s = events m s ++ events (k (result m s)) (exec m s).
Proof. reflexivity. Qed.

(** ** Bits of the event mask *)

Lemma testbit_u16 (x n : Z) :
  Z.testbit (u16 x) n = (n <? 16) && Z.testbit x n.
Proof. unfold u16, wrap. apply Z.testbit_mod_pow2. lia. Qed.

Lemma testbit_MASK (n : Z) :
  0 <= n -> Z.testbit PLATFORM_PB_ONBOARD_MASK n = (n <? 2).
Proof. intros Hn. change PLATFORM_PB_ONBOARD_MASK with (Z.ones 2).
  apply Z.testbit_ones_nonneg; lia. Qed.

Lemma testbit_PRESS (n : Z) :
  Z.testbit PLATFORM_PB_ONBOARD_PRESS n = (0 =? n).
Proof. change PLATFORM_PB_ONBOARD_PRESS with (2 ^ 0). apply Z.pow2_bits_eqb. lia. Qed.

Lemma testbit_RELEASE (n : Z) :
  Z.testbit PLATFORM_PB_ONBOARD_RELEASE n = (1 =? n).
Proof. change PLATFORM_PB_ONBOARD_RELEASE with (2 ^ 1). apply Z.pow2_bits_eqb. lia. Qed.

(** Equalities between bitwise expressions over the mask constants, bit by bit. *)
Ltac mask_bits :=
  apply Z.bits_inj'; intros ?n ?Hn;
  repeat first
    [ rewrite Z.land_spec | rewrite Z.lor_spec | rewrite testbit_u16
    | rewrite Z.lnot_spec by assumption
    | rewrite testbit_MASK by assumption
    | rewrite testbit_PRESS | rewrite testbit_RELEASE
    | rewrite Z.bits_0 ];
  repeat match goal with
         | |- context [?a <? ?b] => destruct (Z.ltb_spec a b)
         | |- context [?a =? ?b] => destruct (Z.eqb_spec a b)
         end;
  try lia;
  repeat match goal with
         | |- context [Z.testbit ?x ?i] => destruct (Z.testbit x i)
         end;
  try reflexivity.

Lemma clear_then_set (m f : Z) :
  f = PLATFORM_PB_ONBOARD_PRESS \/ f = PLATFORM_PB_ONBOARD_RELEASE ->
  u16 (Z.lor (u16 (Z.land m (Z.lnot PLATFORM_PB_ONBOARD_MASK))) f)
  = Z.lor (Z.land (u16 m) (Z.lnot PLATFORM_PB_ONBOARD_MASK)) f.
Proof. intros [-> | ->]; mask_bits. Qed.

Lemma set_bits_in_mask (x f : Z) :
  f = PLATFORM_PB_ONBOARD_PRESS \/ f = PLATFORM_PB_ONBOARD_RELEASE ->
  Z.land (Z.lor (Z.land x (Z.lnot PLATFORM_PB_ONBOARD_MASK)) f)
         PLATFORM_PB_ONBOARD_MASK = f.
Proof. intros [-> | ->]; mask_bits. Qed.

Lemma set_bits_out_of_mask (x f : Z) :
  f = PLATFORM_PB_ONBOARD_PRESS \/ f = PLATFORM_PB_ONBOARD_RELEASE ->
  Z.land (Z.lor (Z.land x (Z.lnot PLATFORM_PB_ONBOARD_MASK)) f)
         (Z.lnot PLATFORM_PB_ONBOARD_MASK)
  = Z.land x (Z.lnot PLATFORM_PB_ONBOARD_MASK).
Proof. intros [-> | ->]; mask_bits. Qed.

Lemma mask_within_u16 (m : Z) : mask_within m -> u16 m = m.
Proof.
  unfold mask_within. intros H. apply Z.bits_inj'. intros n Hn.
  rewrite testbit_u16. destruct (Z.ltb_spec n 16) as [Hlt | Hge]; [reflexivity|].
  apply (f_equal (fun z => Z.testbit z n)) in H.
  rewrite Z.land_spec, Z.lnot_spec, testbit_MASK, Z.bits_0 in H by assumption.
  destruct (Z.ltb_spec n 2); [lia|].
  simpl. destruct (Z.testbit m n); [discriminate H | reflexivity].
Qed.

Lemma event_flag_cases (p : Z) :
  event_flag p = PLATFORM_PB_ONBOARD_PRESS \/ event_flag p = PLATFORM_PB_ONBOARD_RELEASE.
Proof. unfold event_flag. destruct (_ =? _); [left | right]; reflexivity. Qed.

(** The mask the handler leaves, in one expression. *)
Lemma handler_mask (s : state) :
  pb_press_mask (exec EIC_EXTINT_2_Handler s)
  = Z.lor (Z.land (u16 (pb_press_mask s)) (Z.lnot PLATFORM_PB_ONBOARD_MASK))
          (event_flag (regs s EIC_PINSTATE)).
Proof.
  rewrite <- clear_then_set by apply event_flag_cases.
  unfold event_flag, EIC_EXTINT_2_Handler, exec. cbn.
  destruct (Z.land (regs s EIC_PINSTATE) _ =? 0); reflexivity.
Qed.

Lemma button_event_mask (pressed : bool) (s : state) :
  pb_press_mask (exec (button_event pressed) s)
  = Z.lor (Z.land (u16 (pb_press_mask s)) (Z.lnot PLATFORM_PB_ONBOARD_MASK))
          (if pressed then PLATFORM_PB_ONBOARD_PRESS else PLATFORM_PB_ONBOARD_RELEASE).
Proof.
  unfold button_event. rewrite exec_bind, handler_mask.
  change (pb_press_mask (exec (modify (pin_edge pressed)) s)) with (pb_press_mask s).
  f_equal. unfold event_flag.
  change (regs (exec (modify (pin_edge pressed)) s) EIC_PINSTATE)
    with (if pressed then Z.land (regs s EIC_PINSTATE) (Z.lnot (bit 2))
          else Z.lor (regs s EIC_PINSTATE) (bit 2)).
  destruct pressed.
  - replace (Z.land (Z.land (regs s EIC_PINSTATE) (Z.lnot (bit 2))) (bit 2)) with 0;
      [reflexivity|].
    rewrite <- Z.land_assoc, (Z.land_comm (Z.lnot _)), Z.land_lnot_diag, Z.land_0_r.
    reflexivity.
  - rewrite Z.land_lor_distr_l, Z.land_diag.
    destruct (Z.eqb_spec (Z.lor (Z.land (regs s EIC_PINSTATE) (bit 2)) (bit 2)) 0) as [E|E];
      [|reflexivity].
    apply Z.lor_eq_0_iff in E. destruct E as [_ E]. discriminate E.
Qed.

Lemma get_event_result (s : state) :
  result platform_pb_get_event s = pb_press_mask s.
Proof. reflexivity. Qed.

Lemma get_event_mask (s : state) :
  pb_press_mask (exec platform_pb_get_event s) = 0.
Proof. reflexivity. Qed.

(** ** EventCapture *)

(** C3: whatever the event mask held before, one invocation of the
    edge-interrupt handler clears PRESS and RELEASE and then sets exactly
    one of them, PRESS when bit 2 of PINSTATE reads 0 (pin low, button
    pressed) and RELEASE otherwise; the two bits are never both set after
    it, and the other bits of the 16-bit mask are left as they were. *)
Theorem handler_sets_exactly_one (s : state) :
  let m' := pb_press_mask (exec EIC_EXTINT_2_Handler s) in
  let low := Z.land (regs s EIC_PINSTATE) (bit 2) =? 0 in
  m' = Z.lor (Z.land (u16 (pb_press_mask s)) (Z.lnot PLATFORM_PB_ONBOARD_MASK))
             (if low then PLATFORM_PB_ONBOARD_PRESS else PLATFORM_PB_ONBOARD_RELEASE)
  /\ Z.land m' PLATFORM_PB_ONBOARD_MASK
     = (if low then PLATFORM_PB_ONBOARD_PRESS else PLATFORM_PB_ONBOARD_RELEASE)
  /\ Z.land m' PLATFORM_PB_ONBOARD_MASK <> PLATFORM_PB_ONBOARD_MASK
  /\ Z.land m' (Z.lnot PLATFORM_PB_ONBOARD_MASK)
     = Z.land (u16 (pb_press_mask s)) (Z.lnot PLATFORM_PB_ONBOARD_MASK).
Proof.
  intros m' low. subst m'. rewrite handler_mask.
  fold low. change (event_flag (regs s EIC_PINSTATE))
    with (if low then PLATFORM_PB_ONBOARD_PRESS else PLATFORM_PB_ONBOARD_RELEASE).
  assert (Hf : (if low then PLATFORM_PB_ONBOARD_PRESS else PLATFORM_PB_ONBOARD_RELEASE)
               = PLATFORM_PB_ONBOARD_PRESS
            \/ (if low then PLATFORM_PB_ONBOARD_PRESS else PLATFORM_PB_ONBOARD_RELEASE)
               = PLATFORM_PB_ONBOARD_RELEASE)
    by (destruct low; [left | right]; reflexivity).
  split; [reflexivity|].
  rewrite set_bits_in_mask, set_bits_out_of_mask by exact Hf.
  split; [reflexivity|]. split; [|reflexivity].
  destruct low; discriminate.
Qed.

(** C4: [platform_pb_get_event] returns the stored mask and leaves the
    stored mask empty; when the consumer has just read, one press event
    makes the next call return PRESS, and the call after that, with no
    handler invocation in between, returns the empty mask.  The same holds
    for the first press after reset. *)
Theorem get_event_reads_and_clears (s : state) :
  result platform_pb_get_event s = pb_press_mask s
  /\ pb_press_mask (exec platform_pb_get_event s) = 0
  /\ (let s1 := exec press_event (exec platform_pb_get_event s) in
      result platform_pb_get_event s1 = PLATFORM_PB_ONBOARD_PRESS
      /\ result platform_pb_get_event (exec platform_pb_get_event s1) = 0)
  /\ (forall latency count,
      let s1 := exec press_event (reset_state latency count) in
      result platform_pb_get_event s1 = PLATFORM_PB_ONBOARD_PRESS
      /\ result platform_pb_get_event (exec platform_pb_get_event s1) = 0).
Proof.
  split; [reflexivity|]. split; [reflexivity|]. split.
  - intros s1. subst s1. rewrite !get_event_result, get_event_mask.
    unfold press_event. rewrite button_event_mask, get_event_mask.
    split; reflexivity.
  - intros latency count s1. subst s1. rewrite !get_event_result, get_event_mask.
    unfold press_event. rewrite button_event_mask.
    split; reflexivity.
Qed.

Example press_event_trace :
  events press_event (reset_state 0 (fun _ => 0))
  = [EvRead EIC_PINSTATE 0; EvRead EIC_INTFLAG 4; EvWrite EIC_INTFLAG 4].
Proof. reflexivity. Qed.

(** C1, as the code has it: when a press event and then a release event
    each fire once before the consumer reads, the release handler clears
    the PRESS bit that the press handler had set, so the next call to
    [platform_pb_get_event] returns a mask whose PRESS | RELEASE part is
    RELEASE alone (and the mask is exactly RELEASE when the consumer had
    read just before, or after reset); the call after that returns empty. *)
Theorem press_then_release_reads_release (s : state) :
  let after := fun s0 => exec release_event (exec press_event s0) in
  Z.land (result platform_pb_get_event (after s)) PLATFORM_PB_ONBOARD_MASK
    = PLATFORM_PB_ONBOARD_RELEASE
  /\ Z.land (result platform_pb_get_event (after s)) PLATFORM_PB_ONBOARD_PRESS = 0
  /\ result platform_pb_get_event (after (exec platform_pb_get_event s))
     = PLATFORM_PB_ONBOARD_RELEASE
  /\ (forall latency count,
      result platform_pb_get_event (after (reset_state latency count))
      = PLATFORM_PB_ONBOARD_RELEASE)
  /\ result platform_pb_get_event (exec platform_pb_get_event (after s)) = 0.
Proof.
  intros after. subst after. cbv beta.
  rewrite !get_event_result, get_event_mask.
  unfold release_event, press_event. rewrite !button_event_mask, get_event_mask.
  split; [apply set_bits_in_mask; right; reflexivity|].
  split.
  - set (x := u16 _).
    assert (H : Z.land (Z.lor (Z.land x (Z.lnot PLATFORM_PB_ONBOARD_MASK))
                              PLATFORM_PB_ONBOARD_RELEASE)
                       PLATFORM_PB_ONBOARD_MASK = PLATFORM_PB_ONBOARD_RELEASE)
      by (apply set_bits_in_mask; right; reflexivity).
    apply (f_equal (fun z => Z.land z PLATFORM_PB_ONBOARD_PRESS)) in H.
    rewrite <- Z.land_assoc in H. exact H.
  - split; [reflexivity|]. split; reflexivity.
Qed.

(** C1, as the spec states it, fails: after reset, a press event and then
    a release event, the mask that [platform_pb_get_event] returns does not
    contain both PRESS and RELEASE. *)
Lemma press_then_release_not_both :
  let r := result platform_pb_get_event
             (exec release_event (exec press_event (reset_state 0 (fun _ => 0)))) in
  ~ (Z.land r PLATFORM_PB_ONBOARD_PRESS = PLATFORM_PB_ONBOARD_PRESS
     /\ Z.land r PLATFORM_PB_ONBOARD_RELEASE = PLATFORM_PB_ONBOARD_RELEASE).
Proof. vm_compute. intros [H _]. discriminate H. Qed.

(** ** Busy-wait loops *)

Lemma set_sync_same (s : state) : set_sync (sync s) s = s.
Proof. destruct s; reflexivity. Qed.

Lemma dev_read_frame (r : reg) (s : state) :
  r <> TC_COUNT -> exists f, snd (dev_read r s) = set_sync f s.
Proof.
  intros Hr.
  destruct r; try (exists (sync s); symmetry; apply set_sync_same);
    try contradiction; cbn; unfold poll_sync;
    destruct (sync s _);
    try (exists (sync s); symmetry; apply set_sync_same);
    eexists; reflexivity.
Qed.

Lemma spin_run (r : reg) (busy : Z -> bool) (body : M unit) (tb : list event) (n : nat) :
  r <> TC_COUNT ->
  (forall s0, body s0 = (tt, s0, tb)) -> Forall (poll_event r) tb ->
  forall s, exists f t,
    spin r busy body n s = (tt, set_sync f s, t) /\ Forall (poll_event r) t.
Proof.
  intros Hr Hbody Htb. induction n as [|k IH]; intros s;
    destruct (dev_read_frame r s Hr) as [f Hf];
    cbn [spin]; unfold bind, reg_read; cbn [fst snd]; rewrite Hf;
    destruct (busy (fst (dev_read r s))).
  - rewrite Hbody. cbn. exists f, (EvRead r (fst (dev_read r s)) :: tb ++ []).
    split; [reflexivity|]. constructor; [left; eexists; reflexivity|].
    rewrite app_nil_r. exact Htb.
  - exists f, [EvRead r (fst (dev_read r s))]. split; [reflexivity|].
    constructor; [left; eexists; reflexivity | constructor].
  - rewrite Hbody. cbn [fst snd].
    destruct (IH (set_sync f s)) as (g & t & Hg & Ht). rewrite Hg. cbn.
    exists g, (EvRead r (fst (dev_read r s)) :: tb ++ t).
    split; [reflexivity|]. constructor; [left; eexists; reflexivity|].
    apply Forall_app. split; assumption.
  - exists f, [EvRead r (fst (dev_read r s))]. split; [reflexivity|].
    constructor; [left; eexists; reflexivity | constructor].
Qed.

Lemma busy_wait_run (r : reg) (mask : Z) (s : state) :
  r <> TC_COUNT ->
  exists f t, busy_wait r mask s = (tt, set_sync f s, t) /\ Forall (poll_event r) t.
Proof.
  intros Hr. unfold busy_wait, spin_on.
  apply (spin_run r _ (ret tt) []); [exact Hr | reflexivity | constructor].
Qed.

Lemma poll_no_out_write (r : reg) (t : list event) :
  Forall (poll_event r) t -> filter is_out_write t = [].
Proof.
  induction 1 as [|e t He _ IH]; [reflexivity|].
  cbn [filter]. rewrite IH. destruct He as [[v ->] | ->]; reflexivity.
Qed.

Lemma read_count_run (s : state) :
  exists f t,
    read_count s
    = (u16 (tc_count s (tc_reads s)),
       set_tc_reads (S (tc_reads s)) (set_sync f (dev_write TC_CTRLBSET (Z.shiftl 0x4 5) s)),
       t)
    /\ filter is_out_write t = [].
Proof.
  unfold read_count, bind, reg_write, reg_read. cbn [fst snd].
  destruct (busy_wait_run TC_SYNCBUSY (bit 2) (dev_write TC_CTRLBSET (Z.shiftl 4 5) s))
    as (f & t & H & Ht); [discriminate|].
  rewrite H. cbn [fst snd].
  eexists _, _. split; [reflexivity|].
  cbn [app filter is_out_write]. rewrite filter_app, (poll_no_out_write _ _ Ht). reflexivity.
Qed.

Lemma busy_wait_exec (r : reg) (mask : Z) (s : state) :
  r <> TC_COUNT -> exists f, exec (busy_wait r mask) s = set_sync f s.
Proof.
  intros Hr. destruct (busy_wait_run r mask s Hr) as (f & t & H & _).
  exists f. unfold exec. rewrite H. reflexivity.
Qed.

(** ** Stages of the blink logic *)

Lemma stage_refl (s : state) :
  stage s s (regs s PORT_OUT) (regs s (TC_CC 0)) (tc_reads s).
Proof. repeat split. Qed.

Lemma stage_write_cc (v : Z) (s0 s : state) (o p : Z) (n : nat) :
  stage s0 s o p n -> stage s0 (exec (reg_write (TC_CC 0) v) s) o (u16 v) n.
Proof. intros (Ho & Hp & Hn & Hc & Hm & Hb). repeat split; assumption. Qed.

Lemma stage_busy_wait (mask : Z) (s0 s : state) (o p : Z) (n : nat) :
  stage s0 s o p n -> stage s0 (exec (busy_wait TC_SYNCBUSY mask) s) o p n.
Proof.
  intros H. destruct (busy_wait_exec TC_SYNCBUSY mask s) as [f ->]; [discriminate|].
  exact H.
Qed.

Lemma stage_read_count (s0 s : state) (o p : Z) (n : nat) :
  stage s0 s o p n ->
  stage s0 (exec read_count s) o p (S n)
  /\ result read_count s = u16 (tc_count s0 n).
Proof.
  intros (Ho & Hp & Hn & Hc & Hm & Hb).
  destruct (read_count_run s) as (f & t & H & _).
  unfold exec, result. rewrite H. cbn [fst snd]. rewrite <- Hc, <- Hn.
  split; [|reflexivity]. repeat split; cbn; assumption.
Qed.

Lemma stage_outclr (v : Z) (s0 s : state) (o p : Z) (n : nat) :
  stage s0 s o p n ->
  stage s0 (exec (reg_write PORT_OUTCLR v) s) (Z.land o (Z.lnot v)) p n.
Proof.
  intros (Ho & Hp & Hn & Hc & Hm & Hb). repeat split; try assumption.
  cbn. now rewrite Ho.
Qed.

Lemma stage_outset (v : Z) (s0 s : state) (o p : Z) (n : nat) :
  stage s0 s o p n ->
  stage s0 (exec (reg_write PORT_OUTSET v) s) (Z.lor o v) p n.
Proof.
  intros (Ho & Hp & Hn & Hc & Hm & Hb). repeat split; try assumption.
  cbn. now rewrite Ho.
Qed.

Lemma out_writes_busy_wait (mask : Z) (s : state) :
  filter is_out_write (events (busy_wait TC_SYNCBUSY mask) s) = [].
Proof.
  destruct (busy_wait_run TC_SYNCBUSY mask s) as (f & t & H & Ht); [discriminate|].
  unfold events. rewrite H. exact (poll_no_out_write _ _ Ht).
Qed.

Lemma out_writes_read_count (s : state) :
  filter is_out_write (events read_count s) = [].
Proof.
  destruct (read_count_run s) as (f & t & H & Ht). unfold events. rewrite H. exact Ht.
Qed.

Lemma exec_read_cc (s : state) : exec (reg_read (TC_CC 0)) s = s.
Proof. reflexivity. Qed.

Lemma result_read_cc (s : state) : result (reg_read (TC_CC 0)) s = regs s (TC_CC 0).
Proof. reflexivity. Qed.

Lemma stage_if_outclr (b : bool) (v : Z) (s0 s : state) (o p : Z) (n : nat) :
  stage s0 s o p n ->
  stage s0 (exec (if b then reg_write PORT_OUTCLR v else ret tt) s)
        (if b then Z.land o (Z.lnot v) else o) p n.
Proof. destruct b; [apply stage_outclr | exact (fun H => H)]. Qed.

Lemma stage_if_outset (b : bool) (v : Z) (s0 s : state) (o p : Z) (n : nat) :
  stage s0 s o p n ->
  stage s0 (exec (if b then reg_write PORT_OUTSET v else ret tt) s)
        (if b then Z.lor o v else o) p n.
Proof. destruct b; [apply stage_outset | exact (fun H => H)]. Qed.

Lemma stage_cc (s0 s : state) (o p : Z) (n : nat) :
  stage s0 s o p n -> regs s (TC_CC 0) = p.
Proof. intros H. apply H. Qed.

Lemma blink_timed_run (cc : Z) (duty : float) (s0 s : state) (o p : Z) (n : nat) :
  stage s0 s o p n ->
  let thr := PrimFloat.mul (dbl (u16 cc)) duty in
  let lt := PrimFloat.ltb (dbl (u16 (tc_count s0 n))) thr in
  let gt := PrimFloat.ltb thr (dbl (u16 (tc_count s0 (S n)))) in
  stage s0 (exec (blink_timed cc duty) s) (out_after lt gt o) (u16 cc) (S (S n))
  /\ filter is_out_write (events (blink_timed cc duty) s)
     = (if lt then [EvWrite PORT_OUTCLR (bit 15)] else [])
       ++ (if gt then [EvWrite PORT_OUTSET (bit 15)] else []).
Proof.
  intros H0 thr lt gt.
  unfold blink_timed.
  rewrite !exec_bind, !events_bind, !filter_app.
  rewrite !out_writes_busy_wait, !out_writes_read_count.
  rewrite !exec_read_cc, !result_read_cc.
  pose proof (stage_busy_wait (bit 6) _ _ _ _ _ (stage_write_cc cc _ _ _ _ _ H0)) as H2.
  destruct (stage_read_count _ _ _ _ _ H2) as [H3 Hc1].
  rewrite Hc1, (stage_cc _ _ _ _ _ H3). fold thr lt.
  pose proof (stage_if_outclr lt (bit 15) _ _ _ _ _ H3) as H4.
  destruct (stage_read_count _ _ _ _ _ H4) as [H5 Hc2].
  rewrite Hc2, (stage_cc _ _ _ _ _ H5). fold thr gt.
  split; [exact (stage_if_outset gt (bit 15) _ _ _ _ _ H5)|].
  destruct lt, gt; reflexivity.
Qed.

(** ** Double-precision thresholds *)

Lemma range_all_spec (p : Z -> bool) (n : nat) :
  forall lo, range_all n lo p = true ->
  forall c, lo <= c < lo + Z.of_nat n -> p c = true.
Proof.
  induction n as [|k IH]; intros lo H c Hc; [lia|].
  cbn [range_all] in H. apply andb_prop in H. destruct H as [H1 H2].
  destruct (Z.eq_dec c lo) as [-> | Hne]; [exact H1|].
  apply (IH (lo + 1)); [exact H2 | lia].
Qed.

(** Checked on every value a 16-bit counter can hold. *)
Lemma float_agrees_16 (b : blink_setting) (c : Z) :
  timed b = true -> 0 <= c < 65536 -> float_agrees b c = true.
Proof.
  intros Hb Hc.
  apply (range_all_spec (float_agrees b) (Z.to_nat 65536) 0); [|lia].
  destruct b; try discriminate Hb; vm_compute; reflexivity.
Qed.

Lemma u16_range (x : Z) : 0 <= u16 x < 65536.
Proof. unfold u16, wrap. apply Z.mod_pos_bound. reflexivity. Qed.

Lemma below_threshold (b : blink_setting) (c : Z) :
  timed b = true -> 0 <= c < 65536 ->
  PrimFloat.ltb (dbl c) (blink_threshold b) = (10 * c <? duty_tenths b * blink_period b).
Proof.
  intros Hb Hc. pose proof (float_agrees_16 b c Hb Hc) as H.
  unfold float_agrees in H. apply andb_prop in H. destruct H as [H _].
  apply andb_prop in H. destruct H as [H _]. apply Bool.eqb_prop. exact H.
Qed.

Lemma above_threshold (b : blink_setting) (c : Z) :
  timed b = true -> 0 <= c < 65536 ->
  PrimFloat.ltb (blink_threshold b) (dbl c) = (duty_tenths b * blink_period b <? 10 * c).
Proof.
  intros Hb Hc. pose proof (float_agrees_16 b c Hb Hc) as H.
  unfold float_agrees in H. apply andb_prop in H. destruct H as [H _].
  apply andb_prop in H. destruct H as [_ H]. apply Bool.eqb_prop. exact H.
Qed.

Lemma at_threshold (b : blink_setting) (c : Z) :
  timed b = true -> 0 <= c < 65536 ->
  PrimFloat.eqb (dbl c) (blink_threshold b) = (10 * c =? duty_tenths b * blink_period b).
Proof.
  intros Hb Hc. pose proof (float_agrees_16 b c Hb Hc) as H.
  unfold float_agrees in H. apply andb_prop in H. destruct H as [_ H].
  apply Bool.eqb_prop. exact H.
Qed.

(** A 16-bit counter value equals the computed threshold in one case only. *)
Lemma at_threshold_only_fast (b : blink_setting) (c : Z) :
  timed b = true -> 0 <= c < 65536 ->
  PrimFloat.eqb (dbl c) (blink_threshold b) = true <-> b = FAST /\ c = 3516.
Proof.
  intros Hb Hc. rewrite at_threshold by assumption. rewrite Z.eqb_eq.
  destruct b; try discriminate Hb; cbn [duty_tenths blink_period]; split; intros H;
    first [ lia
          | split; [reflexivity | lia]
          | destruct H as [E _]; discriminate E
          | destruct H as [_ ->]; reflexivity ].
Qed.

(** ** BlinkSequencer *)

Lemma blink_modify_exec (s : state) :
  exec platform_blink_modify s
  = match currentSetting s with
    | OFF => exec (reg_write PORT_OUTCLR (bit 15)) s
    | ON => exec (reg_write PORT_OUTSET (bit 15)) s
    | b => exec (blink_timed (blink_period b) (blink_duty b)) s
    end.
Proof.
  unfold platform_blink_modify. rewrite exec_bind.
  change (result (gets currentSetting) s) with (currentSetting s).
  change (exec (gets currentSetting) s) with s.
  destruct (currentSetting s); reflexivity.
Qed.

Lemma blink_modify_events (s : state) :
  events platform_blink_modify s
  = match currentSetting s with
    | OFF => events (reg_write PORT_OUTCLR (bit 15)) s
    | ON => events (reg_write PORT_OUTSET (bit 15)) s
    | b => events (blink_timed (blink_period b) (blink_duty b)) s
    end.
Proof.
  unfold platform_blink_modify. rewrite events_bind.
  change (result (gets currentSetting) s) with (currentSetting s).
  change (exec (gets currentSetting) s) with s.
  change (events (gets currentSetting) s) with (@nil event).
  destruct (currentSetting s); reflexivity.
Qed.

Lemma testbit_out_after (lt gt : bool) (o : Z) :
  Z.testbit (out_after lt gt o) 15
  = if gt then true else if lt then false else Z.testbit o 15.
Proof.
  unfold out_after.
  destruct lt, gt;
    rewrite ?Z.lor_spec, ?Z.land_spec, ?Z.lnot_spec by lia;
    change (Z.testbit (bit 15) 15) with true;
    rewrite ?orb_true_r, ?andb_false_r; reflexivity.
Qed.

(** A timed mode, with the comparisons as the code makes them. *)
Lemma blink_modify_timed_float (s : state) (b : blink_setting) :
  timed b = true -> currentSetting s = b ->
  let lt := PrimFloat.ltb (dbl (u16 (tc_count s (tc_reads s)))) (blink_threshold b) in
  let gt := PrimFloat.ltb (blink_threshold b) (dbl (u16 (tc_count s (S (tc_reads s))))) in
  stage s (exec platform_blink_modify s)
        (out_after lt gt (regs s PORT_OUT)) (blink_period b) (S (S (tc_reads s)))
  /\ filter is_out_write (events platform_blink_modify s)
     = (if lt then [EvWrite PORT_OUTCLR (bit 15)] else [])
       ++ (if gt then [EvWrite PORT_OUTSET (bit 15)] else []).
Proof.
  intros Hb Hs lt gt.
  rewrite blink_modify_exec, blink_modify_events, Hs.
  pose proof (blink_timed_run (blink_period b) (blink_duty b) s s _ _ _ (stage_refl s)) as H.
  destruct b; try discriminate Hb; exact H.
Qed.

(** C2, as the code has it: in each timed mode (SLOW: period 23438, duty
    9/10; MEDIUM: 11719, 8/10; FAST: 7032, 5/10) an invocation of
    [platform_blink_modify] samples the counter twice, [c1] and then [c2];
    it drives the indicator inactive when [c1] is below period x duty and
    then active when [c2] is above it, and otherwise leaves the level as it
    was.  So with both samples equal to [c] the indicator is active if
    [c > period x duty], inactive if [c < period x duty], and unchanged if
    [c] equals the threshold.  In SLOW mode a counter value of 20000 yields
    inactive and 22000 yields active. *)
Theorem blink_modify_timed_level (s : state) (b : blink_setting) :
  timed b = true -> currentSetting s = b ->
  let c1 := u16 (tc_count s (tc_reads s)) in
  let c2 := u16 (tc_count s (S (tc_reads s))) in
  let s' := exec platform_blink_modify s in
  led_on s' = (if duty_tenths b * blink_period b <? 10 * c2 then true
               else if 10 * c1 <? duty_tenths b * blink_period b then false
               else led_on s)
  /\ (c1 = c2 ->
      led_on s' = (if duty_tenths b * blink_period b <? 10 * c1 then true
                   else if 10 * c1 <? duty_tenths b * blink_period b then false
                   else led_on s))
  /\ (b = SLOW -> c1 = 20000 -> c2 = 20000 -> led_on s' = false)
  /\ (b = SLOW -> c1 = 22000 -> c2 = 22000 -> led_on s' = true).
Proof.
  intros Hb Hs c1 c2 s'.
  assert (Hled : led_on s' = (if duty_tenths b * blink_period b <? 10 * c2 then true
                              else if 10 * c1 <? duty_tenths b * blink_period b then false
                              else led_on s)).
  { destruct (blink_modify_timed_float s b Hb Hs) as [(Ho & _) _].
    unfold led_on, s'. rewrite Ho, testbit_out_after.
    rewrite above_threshold, below_threshold by (assumption || apply u16_range).
    reflexivity. }
  split; [exact Hled|].
  split; [intros E; rewrite Hled, <- E; reflexivity|].
  split; intros -> E1 E2; rewrite Hled, E1, E2; reflexivity.
Qed.

Lemma blink_modify_timed_level_witness :
  let lit := set_regs (upd PORT_OUT (bit 15) (fun _ => 0)) in
  let s := set_currentSetting SLOW (lit (reset_state 2 (fun _ => 20000))) in
  let s2 := set_currentSetting SLOW (reset_state 2 (fun _ => 22000)) in
  timed SLOW = true /\ currentSetting s = SLOW /\ currentSetting s2 = SLOW
  /\ led_on s = true /\ led_on (exec platform_blink_modify s) = false
  /\ led_on s2 = false /\ led_on (exec platform_blink_modify s2) = true.
Proof.
  intros lit s s2. do 4 (split; [reflexivity|]).
  split.
  - exact (proj1 (proj2 (proj2 (blink_modify_timed_level s SLOW eq_refl eq_refl)))
                 eq_refl eq_refl eq_refl).
  - split; [reflexivity|].
    exact (proj2 (proj2 (proj2 (blink_modify_timed_level s2 SLOW eq_refl eq_refl)))
                 eq_refl eq_refl eq_refl).
Defined.

(** C2, as the spec states it, fails: in FAST mode with the counter at
    3516, which is not above the threshold 7032 x 0.5, an indicator that
    was active stays active instead of being set inactive. *)
Lemma blink_boundary_keeps_level :
  let s := set_currentSetting FAST
             (set_regs (upd PORT_OUT (bit 15) (fun _ => 0))
                       (reset_state 0 (fun _ => 3516))) in
  u16 (tc_count s (tc_reads s)) = 3516
  /\ u16 (tc_count s (S (tc_reads s))) = 3516
  /\ spec_level FAST 3516 = false
  /\ led_on (exec platform_blink_modify s) <> spec_level FAST 3516.
Proof. vm_compute. repeat split; discriminate. Qed.

(** The accesses of one invocation in SLOW mode, with a device that takes
    one poll to synchronise and the counter at 20000. *)
Example blink_slow_trace :
  events platform_blink_modify
         (set_currentSetting SLOW (reset_state 1 (fun _ => 20000)))
  = [EvWrite (TC_CC 0) 23438; EvRead TC_SYNCBUSY 64; EvRead TC_SYNCBUSY 0;
     EvWrite TC_CTRLBSET 128; EvRead TC_SYNCBUSY 4; EvRead TC_SYNCBUSY 0;
     EvRead TC_COUNT 20000; EvRead (TC_CC 0) 23438;
     EvWrite PORT_OUTCLR 32768;
     EvWrite TC_CTRLBSET 128; EvRead TC_SYNCBUSY 4; EvRead TC_SYNCBUSY 0;
     EvRead TC_COUNT 20000; EvRead (TC_CC 0) 23438].
Proof. vm_compute. reflexivity. Qed.

(** The counter moves between the two samples: below the threshold at the
    first, above it at the second; the output is cleared and then set. *)
Example blink_slow_crossing :
  filter is_out_write
    (events platform_blink_modify
       (set_currentSetting SLOW
          (reset_state 0 (fun n => match n with O => 21094 | _ => 21095 end))))
  = [EvWrite PORT_OUTCLR 32768; EvWrite PORT_OUTSET 32768].
Proof. vm_compute. reflexivity. Qed.

(** C8: in OFF mode [platform_blink_modify] forces the indicator low and in
    ON mode it forces it high, whatever the output was; the only thing it
    does is the one write to the output-clear, respectively output-set,
    register: it does not sample the counter and accesses no register of
    the timer. *)
Theorem blink_modify_forced_level (s : state) (b : blink_setting) :
  currentSetting s = b -> b = OFF \/ b = ON ->
  events platform_blink_modify s
    = [EvWrite (if forced_level b then PORT_OUTSET else PORT_OUTCLR) (bit 15)]
  /\ led_on (exec platform_blink_modify s) = forced_level b
  /\ tc_reads (exec platform_blink_modify s) = tc_reads s
  /\ Forall (fun e => timer_access e = false) (events platform_blink_modify s).
Proof.
  intros Hs Hb. rewrite blink_modify_exec, blink_modify_events, Hs.
  destruct Hb as [-> | ->]; cbn [forced_level].
  - split; [reflexivity|]. split.
    + destruct (stage_outclr (bit 15) s s _ _ _ (stage_refl s)) as (Ho & _).
      unfold led_on. rewrite Ho, Z.land_spec, Z.lnot_spec by lia.
      change (Z.testbit (bit 15) 15) with true. apply andb_false_r.
    + split; [reflexivity|]. repeat constructor.
  - split; [reflexivity|]. split.
    + destruct (stage_outset (bit 15) s s _ _ _ (stage_refl s)) as (Ho & _).
      unfold led_on. rewrite Ho, Z.lor_spec.
      change (Z.testbit (bit 15) 15) with true. apply orb_true_r.
    + split; [reflexivity|]. repeat constructor.
Qed.

Lemma blink_modify_forced_level_witness :
  let s_off := set_regs (upd PORT_OUT (bit 15) (fun _ => 0))
                        (reset_state 0 (fun _ => 0)) in
  let s_on := set_currentSetting ON (reset_state 0 (fun _ => 0)) in
  (led_on s_off = true /\ led_on (exec platform_blink_modify s_off) = false)
  /\ (led_on s_on = false /\ led_on (exec platform_blink_modify s_on) = true).
Proof.
  intros s_off s_on. split; (split; [reflexivity|]).
  - exact (proj1 (proj2 (blink_modify_forced_level s_off OFF eq_refl (or_introl eq_refl)))).
  - exact (proj1 (proj2 (blink_modify_forced_level s_on ON eq_refl (or_intror eq_refl)))).
Defined.

(** C10: in a timed mode, when the counter value sampled for both
    comparisons is exactly equal to the computed threshold,
    [platform_blink_modify] writes neither the output-set nor the
    output-clear register, and the output latch, hence the indicator level,
    stays as it was before the call. *)
Theorem blink_modify_at_threshold (s : state) (b : blink_setting) :
  timed b = true -> currentSetting s = b ->
  PrimFloat.eqb (dbl (u16 (tc_count s (tc_reads s)))) (blink_threshold b) = true ->
  PrimFloat.eqb (dbl (u16 (tc_count s (S (tc_reads s))))) (blink_threshold b) = true ->
  filter is_out_write (events platform_blink_modify s) = []
  /\ regs (exec platform_blink_modify s) PORT_OUT = regs s PORT_OUT
  /\ led_on (exec platform_blink_modify s) = led_on s.
Proof.
  intros Hb Hs E1 E2.
  destruct (blink_modify_timed_float s b Hb Hs) as [(Ho & _) Hev].
  rewrite at_threshold in E1, E2 by (assumption || apply u16_range).
  apply Z.eqb_eq in E1, E2.
  rewrite below_threshold in Ho, Hev by (assumption || apply u16_range).
  rewrite above_threshold in Ho, Hev by (assumption || apply u16_range).
  rewrite E1, E2, Z.ltb_irrefl in Ho, Hev.
  split; [exact Hev|]. split; [exact Ho|].
  unfold led_on. rewrite Ho. reflexivity.
Qed.

Lemma blink_modify_at_threshold_witness :
  let s := set_currentSetting FAST
             (set_regs (upd PORT_OUT (bit 15) (fun _ => 0))
                       (reset_state 1 (fun _ => 3516))) in
  filter is_out_write (events platform_blink_modify s) = []
  /\ led_on s = true
  /\ led_on (exec platform_blink_modify s) = led_on s.
Proof.
  intros s.
  pose proof (blink_modify_at_threshold s FAST eq_refl eq_refl eq_refl eq_refl) as H.
  split; [exact (proj1 H)|]. split; [reflexivity | exact (proj2 (proj2 H))].
Defined.

(** ** Frame properties of the routines *)

Create HintDb frame.

Lemma keeps_mask_ret {A : Type} (a : A) : keeps_mask (ret a).
Proof. intros s. reflexivity. Qed.

Lemma keeps_mask_bind {A B : Type} (m : M A) (k : A -> M B) :
  keeps_mask m -> (forall a, keeps_mask (k a)) -> keeps_mask (bind m k).
Proof. intros Hm Hk s. rewrite exec_bind, Hk, Hm. reflexivity. Qed.

Lemma keeps_mask_emit (e : event) : keeps_mask (emit e).
Proof. intros s. reflexivity. Qed.

Lemma keeps_mask_reg_read (r : reg) : keeps_mask (reg_read r).
Proof.
  intros s. unfold exec, reg_read. cbn [fst snd].
  destruct r; cbn; unfold poll_sync; try destruct (sync s _); reflexivity.
Qed.

Lemma keeps_mask_reg_write (r : reg) (v : Z) : keeps_mask (reg_write r v).
Proof. intros s. destruct r; reflexivity. Qed.

Lemma keeps_mask_reg_or (r : reg) (v : Z) : keeps_mask (reg_or r v).
Proof.
  apply keeps_mask_bind; [apply keeps_mask_reg_read|].
  intros a. apply keeps_mask_reg_write.
Qed.

Lemma keeps_mask_reg_and (r : reg) (v : Z) : keeps_mask (reg_and r v).
Proof.
  apply keeps_mask_bind; [apply keeps_mask_reg_read|].
  intros a. apply keeps_mask_reg_write.
Qed.

Lemma spin_on_run (r : reg) (busy : Z -> bool) (s : state) :
  r <> TC_COUNT ->
  exists f t, spin_on r busy (emit EvNop) s = (tt, set_sync f s, t)
              /\ Forall (poll_event r) t.
Proof.
  intros Hr. unfold spin_on.
  apply (spin_run r busy (emit EvNop) [EvNop]);
    [exact Hr | reflexivity | constructor; [right; reflexivity | constructor]].
Qed.

Lemma keeps_mask_spin_on (r : reg) (busy : Z -> bool) :
  r <> TC_COUNT -> keeps_mask (spin_on r busy (emit EvNop)).
Proof.
  intros Hr s. destruct (spin_on_run r busy s Hr) as (f & t & H & _).
  unfold exec. rewrite H. reflexivity.
Qed.

Lemma keeps_mask_NVIC_init : keeps_mask NVIC_init.
Proof. intros s. reflexivity. Qed.

Lemma keeps_mask_call_extern (extern : routine -> state -> state) (f : routine) :
  keeps_mask (call_extern extern f).
Proof. intros s. reflexivity. Qed.

Lemma poll_is_bus (r : reg) (t : list event) :
  Forall (poll_event r) t -> Forall bus_event t.
Proof.
  apply Forall_impl. intros e [[v ->] | ->]; exact I.
Qed.

Lemma only_bus_ret {A : Type} (a : A) : only_bus (ret a).
Proof. intros s. constructor. Qed.

Lemma only_bus_bind {A B : Type} (m : M A) (k : A -> M B) :
  only_bus m -> (forall a, only_bus (k a)) -> only_bus (bind m k).
Proof.
  intros Hm Hk s. rewrite events_bind. apply Forall_app. split; [apply Hm | apply Hk].
Qed.

Lemma only_bus_nop : only_bus (emit EvNop).
Proof. intros s. repeat constructor. Qed.

Lemma only_bus_reg_read (r : reg) : only_bus (reg_read r).
Proof. intros s. repeat constructor. Qed.

Lemma only_bus_reg_write (r : reg) (v : Z) : only_bus (reg_write r v).
Proof. intros s. repeat constructor. Qed.

Lemma only_bus_reg_or (r : reg) (v : Z) : only_bus (reg_or r v).
Proof.
  apply only_bus_bind; [apply only_bus_reg_read|].
  intros a. apply only_bus_reg_write.
Qed.

Lemma only_bus_reg_and (r : reg) (v : Z) : only_bus (reg_and r v).
Proof.
  apply only_bus_bind; [apply only_bus_reg_read|].
  intros a. apply only_bus_reg_write.
Qed.

Lemma only_bus_spin_on (r : reg) (busy : Z -> bool) :
  r <> TC_COUNT -> only_bus (spin_on r busy (emit EvNop)).
Proof.
  intros Hr s. destruct (spin_on_run r busy s Hr) as (f & t & H & Ht).
  unfold events. rewrite H. exact (poll_is_bus r t Ht).
Qed.

#[local] Hint Resolve keeps_mask_ret keeps_mask_bind keeps_mask_emit
  keeps_mask_reg_read keeps_mask_reg_write keeps_mask_reg_or keeps_mask_reg_and
  keeps_mask_spin_on keeps_mask_NVIC_init keeps_mask_call_extern
  only_bus_ret only_bus_bind only_bus_nop only_bus_reg_read only_bus_reg_write
  only_bus_reg_or only_bus_reg_and only_bus_spin_on : frame.
#[local] Hint Extern 1 (_ <> TC_COUNT) => discriminate : frame.

Ltac frame := repeat first [ progress intros | apply keeps_mask_bind | apply only_bus_bind ];
              auto with frame.

Lemma EVSYS_init_frame : keeps_mask EVSYS_init /\ only_bus EVSYS_init.
Proof. unfold EVSYS_init. split; frame. Qed.

Lemma EIC_init_early_frame : keeps_mask EIC_init_early /\ only_bus EIC_init_early.
Proof. unfold EIC_init_early. split; frame. Qed.

Lemma EIC_init_late_frame : keeps_mask EIC_init_late /\ only_bus EIC_init_late.
Proof. unfold EIC_init_late. split; frame. Qed.

Lemma PB_init_frame : keeps_mask PB_init /\ only_bus PB_init.
Proof. unfold PB_init. split; frame. Qed.

Lemma Emergency_Pins_Init_frame :
  keeps_mask Emergency_Pins_Init /\ only_bus Emergency_Pins_Init.
Proof. unfold Emergency_Pins_Init. split; frame. Qed.

Lemma blink_init_frame : keeps_mask blink_init /\ only_bus blink_init.
Proof. unfold blink_init. split; frame. Qed.

Lemma keeps_mask_blink_modify : keeps_mask platform_blink_modify.
Proof.
  intros s. rewrite blink_modify_exec.
  destruct (currentSetting s) eqn:Hs; try reflexivity;
    apply (blink_timed_run _ _ s s _ _ _ (stage_refl s)).
Qed.

(** The polling loops are left because the device was read idle: the
    last event of the wait is a read of the register with the awaited bits
    clear. *)
Lemma spin_idle (r : reg) (busy : Z -> bool) (body : M unit) (tb : list event) :
  r = EIC_SYNCBUSY \/ r = TC_SYNCBUSY -> busy 0 = false ->
  (forall s0, body s0 = (tt, s0, tb)) ->
  forall n s, sync s r = n ->
  exists t v, events (spin r busy body n) s = t ++ [EvRead r v] /\ busy v = false.
Proof.
  intros Hr Hb0 Hbody. induction n as [|k IH]; intros s Hn.
  - exists [], 0. unfold events. cbn [spin]. unfold bind, reg_read. cbn [fst snd].
    assert (E : dev_read r s = (0, s)).
    { destruct Hr as [-> | ->]; cbn; unfold poll_sync; rewrite Hn; reflexivity. }
    rewrite E. cbn [fst snd]. rewrite Hb0. split; reflexivity.
  - unfold events. cbn [spin]. unfold bind, reg_read. cbn [fst snd].
    assert (E : dev_read r s = (regs s r, set_sync (upd r k (sync s)) s)).
    { destruct Hr as [-> | ->]; cbn; unfold poll_sync; rewrite Hn; reflexivity. }
    rewrite E. cbn [fst snd].
    destruct (busy (regs s r)) eqn:Hbusy.
    + rewrite Hbody. cbn [fst snd].
      destruct (IH (set_sync (upd r k (sync s)) s)) as (t & v & Ht & Hv).
      { cbn. unfold upd. destruct (reg_eq_dec r r); [reflexivity | contradiction]. }
      unfold events in Ht. rewrite Ht.
      exists (EvRead r (regs s r) :: tb ++ t), v. split; [|exact Hv].
      cbn. rewrite <- app_assoc. reflexivity.
    + exists [], (regs s r). split; [reflexivity | exact Hbusy].
Qed.

Lemma busy_wait_idle (r : reg) (mask : Z) (s : state) :
  r = EIC_SYNCBUSY \/ r = TC_SYNCBUSY ->
  exists t v, events (busy_wait r mask) s = t ++ [EvRead r v] /\ Z.land v mask = 0.
Proof.
  intros Hr.
  destruct (spin_idle r (fun v => negb (Z.land v mask =? 0)) (ret tt) [] Hr
              eq_refl (fun _ => eq_refl) (sync s r) s eq_refl) as (t & v & Ht & Hv).
  exists t, v. split; [exact Ht|].
  apply negb_false_iff in Hv. apply Z.eqb_eq. exact Hv.
Qed.

(** The wait on the GCLK channel ends at its first poll: the register
    reads back the value just written. *)
Lemma gclk_wait_idle (s : state) :
  events (spin_on (GCLK_PCHCTRL 4) (fun v => Z.land v 0x00000042 =? 0) (emit EvNop))
         (exec (reg_write (GCLK_PCHCTRL 4) 0x00000042) s)
  = [EvRead (GCLK_PCHCTRL 4) 0x00000042].
Proof.
  unfold events, spin_on.
  destruct (sync (exec (reg_write (GCLK_PCHCTRL 4) 66) s) (GCLK_PCHCTRL 4)); reflexivity.
Qed.

(** The waits of the EIC, with a nop in the loop body. *)
Lemma eic_wait_idle (mask : Z) (s : state) :
  exists t v,
    events (spin_on EIC_SYNCBUSY (fun v => negb (Z.land v mask =? 0)) (emit EvNop)) s
    = t ++ [EvRead EIC_SYNCBUSY v]
    /\ Z.land v mask = 0.
Proof.
  destruct (spin_idle EIC_SYNCBUSY (fun v => negb (Z.land v mask =? 0)) (emit EvNop)
              [EvNop] (or_introl eq_refl) eq_refl (fun _ => eq_refl)
              (sync s EIC_SYNCBUSY) s eq_refl) as (t & v & Ht & Hv).
  exists t, v. split; [exact Ht|].
  apply negb_false_iff in Hv. apply Z.eqb_eq. exact Hv.
Qed.

(** ** Initialisation order *)













Section PlatformInit.

Variable extern : routine -> state -> state.

Lemma keeps_mask_platform_init : keeps_mask (platform_init extern).
Proof.
  pose proof EVSYS_init_frame as [? _]. pose proof EIC_init_early_frame as [? _].
  pose proof EIC_init_late_frame as [? _]. pose proof PB_init_frame as [? _].
  pose proof Emergency_Pins_Init_frame as [? _]. pose proof blink_init_frame as [? _].
  unfold platform_init, call. frame.
Qed.



(** ** The event mask over the life of the machine *)

Lemma step_keeps_within (s s' : state) :
  mask_within (pb_press_mask s) -> step extern s s' -> mask_within (pb_press_mask s').
Proof.
  intros Hin Hstep. unfold mask_within in *.
  destruct Hstep as [pressed s | s | s | s | s | s s' Hsame].
  - rewrite button_event_mask, set_bits_out_of_mask
      by (destruct pressed; [left | right]; reflexivity).
    rewrite mask_within_u16 by exact Hin. exact Hin.
  - rewrite handler_mask, set_bits_out_of_mask by apply event_flag_cases.
    rewrite mask_within_u16 by exact Hin. exact Hin.
  - reflexivity.
  - rewrite keeps_mask_blink_modify. exact Hin.
  - rewrite keeps_mask_platform_init. exact Hin.
  - rewrite Hsame. exact Hin.
Qed.

(** C9: the stored event mask starts at zero and never holds a bit outside
    PRESS | RELEASE: in every state the machine can reach, by handler
    invocations, calls of [platform_pb_get_event] and everything else that
    runs, the stored mask is within PLATFORM_PB_ONBOARD_MASK, it still is
    after a further handler invocation or a further read, and the value
    that [platform_pb_get_event] returns has no bit outside PRESS and
    RELEASE. *)
Theorem event_mask_within (s : state) :
  reachable extern s ->
  mask_within (pb_press_mask s)
  /\ mask_within (pb_press_mask (exec EIC_EXTINT_2_Handler s))
  /\ mask_within (pb_press_mask (exec platform_pb_get_event s))
  /\ mask_within (result platform_pb_get_event s)
  /\ (forall latency count, pb_press_mask (reset_state latency count) = 0).
Proof.
  intros Hreach.
  assert (Hin : mask_within (pb_press_mask s)).
  { induction Hreach as [latency count | s s' _ IH Hstep]; [reflexivity|].
    exact (step_keeps_within s s' IH Hstep). }
  split; [exact Hin|].
  split; [exact (step_keeps_within _ _ Hin (step_handler extern s))|].
  split; [reflexivity|].
  split; [exact Hin | reflexivity].
Qed.

End PlatformInit.

Lemma event_mask_within_witness :
  let s := exec release_event (exec press_event (reset_state 0 (fun _ => 0))) in
  reachable (fun _ st => st) s
  /\ pb_press_mask s = PLATFORM_PB_ONBOARD_RELEASE
  /\ mask_within (result platform_pb_get_event s).
Proof.
  intros s.
  assert (R : reachable (fun _ st => st) s).
  { apply reachable_step with (s := exec press_event (reset_state 0 (fun _ => 0))).
    - apply reachable_step with (s := reset_state 0 (fun _ => 0)).
      + apply reachable_reset.
      + apply (step_button _ true).
    - apply (step_button _ false). }
  split; [exact R|]. split; [reflexivity|].
  exact (proj1 (proj2 (proj2 (proj2 (event_mask_within (fun _ st => st) s R))))).
Defined.

(** ** TickClock *)

Module TickClockProps.
Import TickClock.

Lemma delta_nsec (lhs rhs : platform_timespec_t) :
  valid lhs -> valid rhs ->
  valid (platform_tick_delta lhs rhs)
  /\ to_nsec (platform_tick_delta lhs rhs)
     = if to_nsec lhs <? to_nsec rhs
       then to_nsec lhs + PERIOD_NSEC - to_nsec rhs
       else to_nsec lhs - to_nsec rhs.
Proof.
  destruct lhs as [ls ln], rhs as [rs rn].
  unfold valid, to_nsec, platform_tick_delta, NSEC_PER_SEC, SEC_WRAP, PERIOD_NSEC.
  cbn [nr_sec nr_nsec]. intros [Hls Hln] [Hrs Hrn].
  destruct (Z.ltb_spec ln rn);
    destruct (Z.ltb_spec (ls * 1000000000 + ln) (rs * 1000000000 + rn));
    match goal with
    | |- context [?a <? 0] => destruct (Z.ltb_spec a 0)
    end;
    cbn [nr_sec nr_nsec]; lia.
Qed.

(** C5: for two valid tick samples, [platform_tick_delta] yields a valid
    tick worth [lhs - rhs] modulo one period of the counter: the plain
    difference, with the nanosecond borrow carried into the seconds, when
    [lhs] is not earlier than [rhs], and the difference plus one full period
    when [lhs] appears earlier than [rhs].  Whenever the time really
    elapsed between the samples is less than one period (at most one
    wraparound), the result is that elapsed time. *)
Theorem tick_delta_single_wraparound (lhs rhs : platform_timespec_t) :
  valid lhs -> valid rhs ->
  let d := platform_tick_delta lhs rhs in
  valid d
  /\ to_nsec d = (to_nsec lhs - to_nsec rhs) mod PERIOD_NSEC
  /\ (to_nsec rhs <= to_nsec lhs -> to_nsec d = to_nsec lhs - to_nsec rhs)
  /\ (to_nsec lhs < to_nsec rhs ->
      to_nsec d = to_nsec lhs + PERIOD_NSEC - to_nsec rhs
      /\ 0 < to_nsec d < PERIOD_NSEC)
  /\ (forall elapsed, 0 <= elapsed < PERIOD_NSEC ->
      to_nsec lhs = (to_nsec rhs + elapsed) mod PERIOD_NSEC ->
      to_nsec d = elapsed).
Proof.
  intros Hl Hr d. destruct (delta_nsec lhs rhs Hl Hr) as [Hv Hd]. fold d in Hv, Hd.
  assert (Bl : 0 <= to_nsec lhs < PERIOD_NSEC)
    by (destruct Hl; unfold to_nsec, NSEC_PER_SEC, SEC_WRAP, PERIOD_NSEC in *; lia).
  assert (Br : 0 <= to_nsec rhs < PERIOD_NSEC)
    by (destruct Hr; unfold to_nsec, NSEC_PER_SEC, SEC_WRAP, PERIOD_NSEC in *; lia).
  assert (Hmod : to_nsec d = (to_nsec lhs - to_nsec rhs) mod PERIOD_NSEC).
  { rewrite Hd. unfold PERIOD_NSEC in *.
    destruct (Z.ltb_spec (to_nsec lhs) (to_nsec rhs)).
    - apply Z.mod_unique with (q := -1); lia.
    - symmetry. apply Z.mod_small. lia. }
  split; [exact Hv|]. split; [exact Hmod|]. split; [|split].
  - intros Hle. rewrite Hd. destruct (Z.ltb_spec (to_nsec lhs) (to_nsec rhs)); lia.
  - intros Hlt. rewrite Hd. destruct (Z.ltb_spec (to_nsec lhs) (to_nsec rhs)); lia.
  - intros elapsed He Hwrap. rewrite Hmod, Hwrap. unfold PERIOD_NSEC in *.
    rewrite Zminus_mod_idemp_l.
    replace (to_nsec rhs + elapsed - to_nsec rhs) with elapsed by lia.
    apply Z.mod_small. exact He.
Qed.

(** The sample of the spec: [lhs] just after the wrap, [rhs] 100 ns
    before it. *)
Lemma tick_delta_single_wraparound_witness :
  let lhs := mkTimespec 0 100 in
  let rhs := mkTimespec 4294967295 999999900 in
  valid lhs /\ valid rhs
  /\ platform_tick_delta lhs rhs = mkTimespec 0 200
  /\ to_nsec (platform_tick_delta lhs rhs) = 200
  /\ naive_delta lhs rhs = mkTimespec 1 3294967496.
Proof.
  intros lhs rhs.
  assert (Hl : valid lhs) by (unfold valid, SEC_WRAP; cbn; lia).
  assert (Hr : valid rhs) by (unfold valid, SEC_WRAP; cbn; lia).
  split; [exact Hl|]. split; [exact Hr|]. split; [reflexivity|].
  split; [|reflexivity].
  destruct (tick_delta_single_wraparound lhs rhs Hl Hr) as (_ & _ & _ & H & _).
  rewrite (proj1 (H ltac:(unfold to_nsec, NSEC_PER_SEC; cbn; lia))). reflexivity.
Defined.

End TickClockProps.

(** ** AsyncSerialChannel *)

Module SerialChannelProps.
Import SerialChannel.

(** C6: while a transmission is in progress [platform_usart_cdc_tx_async]
    returns false and leaves the channel as it was; after
    [platform_usart_cdc_tx_abort], or after completion, the same call
    returns true and the channel is busy with the new fragment list.  In
    particular the second of two enqueues in a row is rejected, and
    accepted once the first has been aborted. *)
Theorem tx_async_single_outstanding
    (ch : channel) (desc desc' : list platform_usart_tx_bufdesc_t) :
  platform_usart_cdc_tx_busy ch = true ->
  platform_usart_cdc_tx_async desc ch = (false, ch)
  /\ platform_usart_cdc_tx_async desc (platform_usart_cdc_tx_abort ch)
     = (true, mkChannel (Some desc))
  /\ platform_usart_cdc_tx_async desc (tx_complete ch)
     = (true, mkChannel (Some desc))
  /\ platform_usart_cdc_tx_busy (platform_usart_cdc_tx_abort ch) = false
  /\ (let first := platform_usart_cdc_tx_async desc (platform_usart_cdc_tx_abort ch) in
      let second := platform_usart_cdc_tx_async desc' (snd first) in
      fst first = true
      /\ second = (false, snd first)
      /\ fst (platform_usart_cdc_tx_async desc'
                (platform_usart_cdc_tx_abort (snd second))) = true).
Proof.
  intros Hbusy. unfold platform_usart_cdc_tx_async at 1. rewrite Hbusy.
  repeat split.
Qed.

Lemma tx_async_single_outstanding_witness :
  let d := [mkTxDesc [72; 105] 2] in
  let ch := snd (platform_usart_cdc_tx_async d idle) in
  platform_usart_cdc_tx_busy ch = true
  /\ platform_usart_cdc_tx_async [] ch = (false, ch)
  /\ fst (platform_usart_cdc_tx_async [] (platform_usart_cdc_tx_abort ch)) = true.
Proof.
  intros d ch.
  pose proof (tx_async_single_outstanding ch [] [] eq_refl) as (H1 & H2 & _).
  split; [reflexivity|]. split; [exact H1|]. rewrite H2. reflexivity.
Defined.

End SerialChannelProps.

(** * Further properties of gpio.c *)

(** ** Bitwise identities *)

Ltac bool_bits :=
  apply Z.bits_inj'; intros ?i ?Hi;
  repeat first [ rewrite Z.land_spec | rewrite Z.lor_spec
               | rewrite Z.lnot_spec by assumption | rewrite Z.bits_0 ];
  repeat match goal with
         | |- context [Z.testbit ?x ?j] => destruct (Z.testbit x j)
         end;
  reflexivity.

Lemma lor_absorb (d b : Z) : Z.lor d (Z.lor d b) = Z.lor d b.
Proof. bool_bits. Qed.

Lemma land_clear_all (d b : Z) : Z.land d (Z.lnot (Z.lor d b)) = 0.
Proof. bool_bits. Qed.

Lemma testbit_bit (n i : Z) : 0 <= n -> Z.testbit (bit n) i = (n =? i).
Proof. intros Hn. unfold bit. rewrite Z.shiftl_1_l. apply Z.pow2_bits_eqb. exact Hn. Qed.

(** ** GPIO configuration *)

Lemma PB_init_port (s : state) :
  regs (exec PB_init s) PORT_DIR
  = Z.land (regs s PORT_DIR) (Z.lnot (Z.lor (regs s PORT_DIR) (bit 23)))
  /\ regs (exec PB_init s) PORT_OUT
     = Z.lor (regs s PORT_OUT) (Z.lor (regs s PORT_OUT) (bit 0)).
Proof. split; reflexivity. Qed.

Lemma PB_init_latches (s : state) :
  regs (exec PB_init s) PORT_DIR = 0
  /\ regs (exec PB_init s) PORT_OUT = Z.lor (regs s PORT_OUT) (bit 0).
Proof.
  destruct (PB_init_port s) as [Hd Ho].
  rewrite lor_absorb in Ho. rewrite land_clear_all in Hd. split; assumption.
Qed.

(** X1: [PORT_DIRCLR |= (1 << 23)] reads the direction latch and writes it
    back, with bit 23 added, to the clear register: [PB_init] turns every
    pin of the group into an input, not PA23 alone.  The pull level it sets
    in the output latch is that of bit 0; the LED bit is left alone. *)
Theorem PB_init_port_effect (s : state) :
  let s' := exec PB_init s in
  regs s' PORT_DIR = 0
  /\ regs s' PORT_OUT = Z.lor (regs s PORT_OUT) (bit 0)
  /\ led_on s' = led_on s
  /\ regs s' (PORT_PINCFG 23) = Z.lor (regs s (PORT_PINCFG 23)) 0x7
  /\ regs s' (PORT_PMUX 11) = regs s (PORT_PMUX 11).
Proof.
  intros s'. destruct (PB_init_latches s) as [Hd Ho]. fold s' in Hd, Ho.
  split; [exact Hd|]. split; [exact Ho|]. split; [|split].
  - unfold led_on. rewrite Ho, Z.lor_spec, testbit_bit by lia. apply orb_false_r.
  - reflexivity.
  - change (regs s' (PORT_PMUX 11)) with (Z.lor (regs s (PORT_PMUX 11)) 0).
    apply Z.lor_0_r.
Qed.

Lemma PB_init_config0 (s : state) :
  regs (exec PB_init s) EIC_CONFIG0
  = Z.lor (Z.land (regs s EIC_CONFIG0) 0xFFFFF0FF) 0xB00.
Proof. reflexivity. Qed.

(** X2: [PB_init] programs the sense field of EXTINT2, bits 11:8 of
    CONFIG0, to 0xB whatever the field held, keeps the fields of the other
    lines, turns on the debouncer of line 2 and enables its interrupt,
    keeping the other lines' debounce and enable bits. *)
Theorem PB_init_eic_effect (s : state) :
  let s' := exec PB_init s in
  Z.land (Z.shiftr (regs s' EIC_CONFIG0) 8) 0xF = 0xB
  /\ (forall i, 0 <= i < 32 -> ~ 8 <= i < 12 ->
      Z.testbit (regs s' EIC_CONFIG0) i = Z.testbit (regs s EIC_CONFIG0) i)
  /\ regs s' EIC_DEBOUNCEN = Z.lor (regs s EIC_DEBOUNCEN) (bit 2)
  /\ regs s' EIC_INTENSET = Z.lor (regs s EIC_INTENSET) (bit 2).
Proof.
  intros s'. subst s'. rewrite PB_init_config0.
  set (c := regs s EIC_CONFIG0).
  change 0xFFFFF0FF with (Z.ldiff (Z.ones 32) (Z.shiftl (Z.ones 4) 8)).
  change 0xB00 with (Z.shiftl 0xB 8).
  assert (Hbits : forall i, 0 <= i ->
            Z.testbit (Z.lor (Z.land c (Z.ldiff (Z.ones 32) (Z.shiftl (Z.ones 4) 8)))
                             (Z.shiftl 0xB 8)) i
            = (Z.testbit c i && ((i <? 32) && negb ((8 <=? i) && (i <? 12))))
              || ((8 <=? i) && Z.testbit 0xB (i - 8))).
  { intros i Hi.
    rewrite Z.lor_spec, Z.land_spec, Z.ldiff_spec, !Z.shiftl_spec by exact Hi.
    rewrite Z.testbit_ones_nonneg by lia.
    destruct (Z.leb_spec 8 i) as [H8 | H8].
    - rewrite Z.testbit_ones_nonneg by lia.
      replace (i - 8 <? 4) with (i <? 12)
        by (destruct (Z.ltb_spec (i - 8) 4), (Z.ltb_spec i 12); lia || reflexivity).
      reflexivity.
    - rewrite !(Z.testbit_neg_r _ (i - 8)) by lia. reflexivity. }
  split; [|split; [|split; reflexivity]].
  - apply Z.bits_inj'. intros j Hj.
    rewrite Z.land_spec, Z.shiftr_spec, Hbits by lia.
    replace (j + 8 - 8) with j by lia.
    destruct (Z.ltb_spec j 4) as [H4 | H4].
    + replace (8 <=? j + 8) with true by (symmetry; apply Z.leb_le; lia).
      replace (j + 8 <? 12) with true by (symmetry; apply Z.ltb_lt; lia).
      change 0xF with (Z.ones 4). rewrite Z.testbit_ones_nonneg by lia.
      replace (j <? 4) with true by (symmetry; apply Z.ltb_lt; lia).
      destruct (Z.testbit c (j + 8)), (Z.testbit 0xB j), (j + 8 <? 32); reflexivity.
    + change 0xF with (Z.ones 4). rewrite Z.testbit_ones_nonneg by lia.
      replace (j <? 4) with false by (symmetry; apply Z.ltb_ge; lia).
      rewrite andb_false_r. symmetry.
      apply Z.bits_above_log2; [lia | cbn; lia].
  - intros i Hi Hout. rewrite Hbits by lia.
    replace (i <? 32) with true by (symmetry; apply Z.ltb_lt; lia).
    destruct (Z.leb_spec 8 i) as [H8 | H8].
    + replace (i <? 12) with false by (symmetry; apply Z.ltb_ge; lia).
      cbn [andb negb]. rewrite andb_true_r.
      rewrite (Z.bits_above_log2 0xB (i - 8)) by (cbn; lia).
      apply orb_false_r.
    + cbn [andb negb]. rewrite andb_true_r. apply orb_false_r.
Qed.

Lemma Emergency_Pins_Init_port (s : state) :
  regs (exec Emergency_Pins_Init s) PORT_DIR
  = (let d := Z.lor (regs s PORT_DIR) (Z.lor (regs s PORT_DIR) (bit 19)) in
     Z.lor d (Z.lor d 0))
  /\ regs (exec Emergency_Pins_Init s) PORT_OUT
     = (let o := Z.lor (regs s PORT_OUT) (Z.lor (regs s PORT_OUT) (bit 19)) in
        Z.lor o (Z.lor o 0)).
Proof. split; reflexivity. Qed.

Lemma Emergency_Pins_Init_latches (s : state) :
  regs (exec Emergency_Pins_Init s) PORT_DIR = Z.lor (regs s PORT_DIR) (bit 19)
  /\ regs (exec Emergency_Pins_Init s) PORT_OUT = Z.lor (regs s PORT_OUT) (bit 19).
Proof.
  destruct (Emergency_Pins_Init_port s) as [Hd Ho]. cbv zeta in Hd, Ho.
  rewrite !Z.lor_0_r, !Z.lor_diag, lor_absorb in Hd, Ho. split; assumption.
Qed.

(** X3: [Emergency_Pins_Init] makes PA19 an output driven high.  Its
    writes for PA18 shift a zero into place, so they set nothing: the
    direction bit and the output bit of PA18, like those of every pin other
    than PA19, stay as they were. *)
Theorem Emergency_Pins_Init_effect (s : state) :
  let s' := exec Emergency_Pins_Init s in
  regs s' PORT_DIR = Z.lor (regs s PORT_DIR) (bit 19)
  /\ regs s' PORT_OUT = Z.lor (regs s PORT_OUT) (bit 19)
  /\ Z.testbit (regs s' PORT_DIR) 19 = true
  /\ Z.testbit (regs s' PORT_OUT) 19 = true
  /\ (forall i, i <> 19 ->
      Z.testbit (regs s' PORT_DIR) i = Z.testbit (regs s PORT_DIR) i
      /\ Z.testbit (regs s' PORT_OUT) i = Z.testbit (regs s PORT_OUT) i)
  /\ regs s' (PORT_PINCFG 19) = Z.lor (regs s (PORT_PINCFG 19)) (bit 1)
  /\ regs s' (PORT_PINCFG 18) = Z.lor (regs s (PORT_PINCFG 18)) 0x7.
Proof.
  intros s'. destruct (Emergency_Pins_Init_latches s) as [Hd Ho]. fold s' in Hd, Ho.
  split; [exact Hd|]. split; [exact Ho|].
  rewrite Hd, Ho, !Z.lor_spec, !testbit_bit by lia.
  split; [apply orb_true_r|]. split; [apply orb_true_r|].
  split; [|split; reflexivity].
  intros i Hi. rewrite !Z.lor_spec, !testbit_bit by lia.
  replace (19 =? i) with false by (symmetry; apply Z.eqb_neq; lia).
  rewrite !orb_false_r. split; reflexivity.
Qed.

Lemma gpio_bring_up_port (s : state) :
  let m := call R_PB_init PB_init ;;
           call R_Emergency_Pins_Init Emergency_Pins_Init ;;
           call R_blink_init blink_init in
  regs (exec m s) PORT_DIR
  = regs (exec blink_init (exec Emergency_Pins_Init (exec PB_init s))) PORT_DIR
  /\ regs (exec m s) PORT_OUT
     = regs (exec blink_init (exec Emergency_Pins_Init (exec PB_init s))) PORT_OUT.
Proof. split; reflexivity. Qed.

Lemma blink_init_port (s : state) :
  regs (exec blink_init s) PORT_DIR
  = Z.lor (regs s PORT_DIR) (Z.lor (regs s PORT_DIR) (bit 15))
  /\ regs (exec blink_init s) PORT_OUT = regs s PORT_OUT
  /\ regs (exec blink_init s) (PORT_PINCFG 15)
     = Z.lor (regs s (PORT_PINCFG 15)) (bit 1).
Proof. repeat split. Qed.

(** X4: the three GPIO routines in the order [platform_init] runs them
    leave exactly PA15 and PA19 as outputs, whatever the directions were
    before, because [PB_init] clears them all first; the output latch gains
    bit 0 and bit 19 and the LED keeps the level it had. *)
Theorem gpio_bring_up_directions (s : state) :
  let s' := exec (call R_PB_init PB_init ;;
                  call R_Emergency_Pins_Init Emergency_Pins_Init ;;
                  call R_blink_init blink_init) s in
  regs s' PORT_DIR = Z.lor (bit 19) (bit 15)
  /\ (forall i, Z.testbit (regs s' PORT_DIR) i = (i =? 15) || (i =? 19))
  /\ regs s' PORT_OUT = Z.lor (Z.lor (regs s PORT_OUT) (bit 0)) (bit 19)
  /\ led_on s' = led_on s.
Proof.
  intros s'. destruct (gpio_bring_up_port s) as [Hd Ho]. fold s' in Hd, Ho.
  destruct (blink_init_port (exec Emergency_Pins_Init (exec PB_init s))) as (Bd & Bo & _).
  destruct (Emergency_Pins_Init_latches (exec PB_init s)) as (Ed & Eo).
  destruct (PB_init_latches s) as (Pd & Po).
  rewrite Bd, lor_absorb, Ed, Pd, Z.lor_0_l in Hd.
  rewrite Bo, Eo, Po in Ho.
  split; [exact Hd|]. split; [|split; [exact Ho|]].
  - intros i. rewrite Hd, Z.lor_spec, !testbit_bit by lia.
    rewrite (Z.eqb_sym 19 i), (Z.eqb_sym 15 i). apply orb_comm.
  - unfold led_on. rewrite Ho, !Z.lor_spec, !testbit_bit by lia.
    rewrite !orb_false_r. reflexivity.
Qed.

(** ** The interrupt handler *)

Lemma upd_other {A : Type} (r0 r : reg) (v : A) (f : reg -> A) :
  r <> r0 -> upd r0 v f r = f r.
Proof. intros H. unfold upd. destruct (reg_eq_dec r r0); [contradiction | reflexivity]. Qed.

(** X5: the handler acknowledges with [EIC_INTFLAG |= (1 << 2)]: it reads
    the flags and writes them back with bit 2 added, and the register
    clears every bit written as one.  So one invocation clears every
    pending flag of the EIC, not the flag of line 2 alone.  It makes three
    register accesses and changes no other register, consumes no counter
    sample and leaves the blink mode alone. *)
Theorem handler_acknowledges_all (s : state) :
  let s' := exec EIC_EXTINT_2_Handler s in
  regs s' EIC_INTFLAG = 0
  /\ events EIC_EXTINT_2_Handler s
     = [EvRead EIC_PINSTATE (regs s EIC_PINSTATE);
        EvRead EIC_INTFLAG (regs s EIC_INTFLAG);
        EvWrite EIC_INTFLAG (Z.lor (regs s EIC_INTFLAG) (bit 2))]
  /\ (forall r, r <> EIC_INTFLAG -> regs s' r = regs s r)
  /\ tc_reads s' = tc_reads s
  /\ currentSetting s' = currentSetting s.
Proof.
  intros s'.
  assert (Hregs : regs s' = upd EIC_INTFLAG
                              (Z.land (regs s EIC_INTFLAG)
                                      (Z.lnot (Z.lor (regs s EIC_INTFLAG) (bit 2))))
                              (regs s)).
  { unfold s', EIC_EXTINT_2_Handler, exec. cbn.
    destruct (Z.land (regs s EIC_PINSTATE) _ =? 0); reflexivity. }
  split; [|split; [|split; [|split]]].
  - rewrite Hregs. unfold upd.
    destruct (reg_eq_dec EIC_INTFLAG EIC_INTFLAG); [|contradiction].
    apply land_clear_all.
  - unfold EIC_EXTINT_2_Handler, events. cbn.
    destruct (Z.land (regs s EIC_PINSTATE) _ =? 0); reflexivity.
  - intros r Hr. rewrite Hregs. apply upd_other. exact Hr.
  - unfold s', EIC_EXTINT_2_Handler, exec. cbn.
    destruct (Z.land (regs s EIC_PINSTATE) _ =? 0); reflexivity.
  - unfold s', EIC_EXTINT_2_Handler, exec. cbn.
    destruct (Z.land (regs s EIC_PINSTATE) _ =? 0); reflexivity.
Qed.

Lemma button_events_snoc (l : list bool) (pressed : bool) (s : state) :
  exec (button_events (l ++ [pressed])) s
  = exec (button_event pressed) (exec (button_events l) s).
Proof.
  revert s. induction l as [|b l IH]; intros s; [reflexivity|].
  cbn [app button_events]. rewrite !exec_bind. apply IH.
Qed.

Lemma button_event_within (pressed : bool) (s : state) :
  mask_within (pb_press_mask s) ->
  pb_press_mask (exec (button_event pressed) s) = flag_of pressed.
Proof.
  intros Hin. rewrite button_event_mask, (mask_within_u16 _ Hin).
  unfold mask_within in Hin. rewrite Hin. reflexivity.
Qed.

Lemma flag_within (pressed : bool) : mask_within (flag_of pressed).
Proof. destruct pressed; reflexivity. Qed.

Lemma button_events_within (l : list bool) (s : state) :
  mask_within (pb_press_mask s) ->
  mask_within (pb_press_mask (exec (button_events l) s)).
Proof.
  revert s. induction l as [|b l IH]; intros s Hin; [exact Hin|].
  cbn [button_events]. rewrite exec_bind. apply IH.
  rewrite (button_event_within b s Hin). apply flag_within.
Qed.

(** X6: the mask keeps the latest event only.  After any run of button
    events since the last read, [platform_pb_get_event] returns the flag of
    the last one, PRESS or RELEASE, whatever came before it and however
    many events there were; the read after that returns empty. *)
Theorem last_button_event_wins (l : list bool) (pressed : bool) (s : state) :
  mask_within (pb_press_mask s) ->
  let s' := exec (button_events (l ++ [pressed])) s in
  result platform_pb_get_event s' = flag_of pressed
  /\ result platform_pb_get_event (exec platform_pb_get_event s') = 0.
Proof.
  intros Hin s'. split; [|reflexivity].
  rewrite get_event_result. unfold s'. rewrite button_events_snoc.
  apply button_event_within. apply button_events_within. exact Hin.
Qed.

Lemma last_button_event_wins_witness :
  let s := reset_state 0 (fun _ => 0) in
  mask_within (pb_press_mask s)
  /\ result platform_pb_get_event
       (exec (button_events [true; false; true; true; false; true]) s)
     = PLATFORM_PB_ONBOARD_PRESS.
Proof.
  intros s.
  assert (Hin : mask_within (pb_press_mask s)) by reflexivity.
  split; [exact Hin|].
  exact (proj1 (last_button_event_wins [true; false; true; true; false] true s Hin)).
Defined.

(** ** The synchronisation waits, poll by poll *)

Lemma spin_exact (r : reg) (busy : Z -> bool) (body : M unit) (tb : list event) :
  r = EIC_SYNCBUSY \/ r = TC_SYNCBUSY -> busy 0 = false ->
  (forall s0, body s0 = (tt, s0, tb)) ->
  forall n s, sync s r = n -> busy (regs s r) = true ->
  events (spin r busy body n) s
  = concat (repeat (EvRead r (regs s r) :: tb) n) ++ [EvRead r 0].
Proof.
  intros Hr Hb0 Hbody. induction n as [|k IH]; intros s Hn Hbusy.
  - unfold events. cbn [spin]. unfold bind, reg_read. cbn [fst snd].
    assert (E : dev_read r s = (0, s)).
    { destruct Hr as [-> | ->]; cbn; unfold poll_sync; rewrite Hn; reflexivity. }
    rewrite E. cbn [fst snd]. rewrite Hb0. reflexivity.
  - unfold events. cbn [spin]. unfold bind, reg_read. cbn [fst snd].
    assert (E : dev_read r s = (regs s r, set_sync (upd r k (sync s)) s)).
    { destruct Hr as [-> | ->]; cbn; unfold poll_sync; rewrite Hn; reflexivity. }
    rewrite E. cbn [fst snd]. rewrite Hbusy, Hbody. cbn [fst snd].
    pose proof (IH (set_sync (upd r k (sync s)) s)) as H.
    unfold events in H. rewrite H.
    + cbn [repeat concat regs set_sync app]. rewrite <- app_assoc. reflexivity.
    + cbn. unfold upd. destruct (reg_eq_dec r r); [reflexivity | contradiction].
    + exact Hbusy.
Qed.

Lemma spin_on_exact (r : reg) (busy : Z -> bool) (body : M unit) (tb : list event)
    (s : state) :
  r = EIC_SYNCBUSY \/ r = TC_SYNCBUSY -> busy 0 = false ->
  (forall s0, body s0 = (tt, s0, tb)) -> busy (regs s r) = true ->
  events (spin_on r busy body) s
  = concat (repeat (EvRead r (regs s r) :: tb) (sync s r)) ++ [EvRead r 0].
Proof.
  intros Hr Hb0 Hbody Hbusy.
  exact (spin_exact r busy body tb Hr Hb0 Hbody (sync s r) s eq_refl Hbusy).
Qed.

Lemma spin_on_exec (r : reg) (busy : Z -> bool) (s : state) :
  r <> TC_COUNT -> exists f, exec (spin_on r busy (emit EvNop)) s = set_sync f s.
Proof.
  intros Hr. destruct (spin_on_run r busy s Hr) as (f & t & H & _).
  exists f. unfold exec. rewrite H. reflexivity.
Qed.

Lemma concat_repeat_one {A : Type} (x : A) (n : nat) :
  concat (repeat [x] n) = repeat x n.
Proof. induction n as [|k IH]; [reflexivity|]. cbn. rewrite IH. reflexivity. Qed.

(** X7: [read_count] follows the read-synchronisation protocol of the
    counter: it writes the READSYNC command (0x80) to CTRLBSET, polls
    SYNCBUSY for as long as the device reports bit 2 busy, and reads COUNT
    only after a poll that found it clear.  It returns the next sample of
    the counter as a 16-bit value, consumes exactly that one sample, and
    does not touch the output latch. *)
Theorem read_count_protocol (s : state) :
  events read_count s
  = EvWrite TC_CTRLBSET 0x80
    :: repeat (EvRead TC_SYNCBUSY (bit 2)) (sync_latency s)
    ++ [EvRead TC_SYNCBUSY 0; EvRead TC_COUNT (result read_count s)]
  /\ result read_count s = u16 (tc_count s (tc_reads s))
  /\ 0 <= result read_count s < 65536
  /\ tc_reads (exec read_count s) = S (tc_reads s)
  /\ regs (exec read_count s) PORT_OUT = regs s PORT_OUT.
Proof.
  destruct (stage_read_count s s _ _ _ (stage_refl s)) as [(Ho & _ & Hn & _) Hres].
  split; [|split; [exact Hres|split; [rewrite Hres; apply u16_range|split; assumption]]].
  unfold read_count. rewrite !events_bind.
  unfold busy_wait at 1.
  rewrite (spin_on_exact TC_SYNCBUSY _ (ret tt) []);
    [| right; reflexivity | reflexivity | reflexivity | reflexivity].
  change (regs (exec (reg_write TC_CTRLBSET (Z.shiftl 4 5)) s) TC_SYNCBUSY) with (bit 2).
  change (sync (exec (reg_write TC_CTRLBSET (Z.shiftl 4 5)) s) TC_SYNCBUSY)
    with (sync_latency s).
  rewrite concat_repeat_one, <- app_assoc. reflexivity.
Qed.

(** X8: [EIC_init_early] routes the generic clock to the EIC and sees
    the channel enabled at its first poll, resets the EIC, executes one
    nop for each poll that finds the reset still synchronising, and
    writes the debounce prescaler only after a poll that found it done.  It
    leaves the EIC disabled with the prescaler at 15. *)
Theorem EIC_init_early_protocol (s : state) :
  events EIC_init_early s
  = [EvWrite (GCLK_PCHCTRL 4) 0x42; EvRead (GCLK_PCHCTRL 4) 0x42;
     EvWrite EIC_CTRLA 0x01]
    ++ concat (repeat [EvRead EIC_SYNCBUSY 1; EvNop] (sync_latency s))
    ++ [EvRead EIC_SYNCBUSY 0; EvWrite EIC_DPRESCALER 15]
  /\ regs (exec EIC_init_early s) EIC_CTRLA = 0
  /\ regs (exec EIC_init_early s) EIC_DPRESCALER = 15.
Proof.
  unfold EIC_init_early. rewrite !events_bind, !exec_bind.
  rewrite gclk_wait_idle.
  destruct (spin_on_exec (GCLK_PCHCTRL 4) (fun v => Z.land v 66 =? 0)
              (exec (reg_write (GCLK_PCHCTRL 4) 66) s)) as [f Hf]; [discriminate|].
  rewrite Hf.
  destruct (spin_on_exec EIC_SYNCBUSY (fun v => negb (Z.land v 1 =? 0))
              (exec (reg_write EIC_CTRLA 1)
                    (set_sync f (exec (reg_write (GCLK_PCHCTRL 4) 66) s))))
    as [g Hg]; [discriminate|].
  rewrite Hg.
  rewrite (spin_on_exact EIC_SYNCBUSY _ (emit EvNop) [EvNop]);
    [| left; reflexivity | reflexivity | reflexivity | reflexivity].
  split; [|split; reflexivity].
  cbn [app]. rewrite <- !app_assoc. reflexivity.
Qed.

Lemma enable_bit_busy (c : Z) :
  negb (Z.land (Z.land (Z.lor c 2) 3) 2 =? 0) = true.
Proof.
  apply negb_true_iff, Z.eqb_neq. intros H.
  apply (f_equal (fun z => Z.testbit z 1)) in H.
  rewrite !Z.land_spec, Z.lor_spec, Z.bits_0 in H.
  change (Z.testbit 2 1) with true in H. change (Z.testbit 3 1) with true in H.
  rewrite orb_true_r in H. discriminate H.
Qed.

(** X9: [EIC_init_late] sets the enable bit of CTRLA, keeping the other
    bits it read, and returns only after a poll of SYNCBUSY found the
    enable synchronised, with one nop for each poll that did not. *)
Theorem EIC_init_late_protocol (s : state) :
  let c := regs s EIC_CTRLA in
  events EIC_init_late s
  = [EvRead EIC_CTRLA c; EvWrite EIC_CTRLA (Z.lor c 0x02)]
    ++ concat (repeat [EvRead EIC_SYNCBUSY (Z.land (Z.lor c 0x02) 3); EvNop]
                      (sync_latency s))
    ++ [EvRead EIC_SYNCBUSY 0]
  /\ Z.testbit (regs (exec EIC_init_late s) EIC_CTRLA) 1 = true
  /\ (forall i, 2 <= i ->
      Z.testbit (regs (exec EIC_init_late s) EIC_CTRLA) i = Z.testbit c i).
Proof.
  intros c. unfold EIC_init_late. rewrite !events_bind, !exec_bind.
  destruct (spin_on_exec EIC_SYNCBUSY (fun v => negb (Z.land v 2 =? 0))
              (exec (reg_or EIC_CTRLA 2) s)) as [g Hg]; [discriminate|].
  rewrite Hg.
  rewrite (spin_on_exact EIC_SYNCBUSY _ (emit EvNop) [EvNop]);
    [| left; reflexivity | reflexivity | reflexivity | apply enable_bit_busy].
  change (regs (set_sync g (exec (reg_or EIC_CTRLA 2) s)) EIC_CTRLA)
    with (Z.land (Z.lor c 2) (Z.lnot 1)).
  split; [reflexivity|]. split.
  - rewrite Z.land_spec, Z.lor_spec. change (Z.testbit 2 1) with true.
    rewrite orb_true_r. reflexivity.
  - intros i Hi. rewrite Z.land_spec, Z.lor_spec, Z.lnot_spec by lia.
    change 2 with (2 ^ 1) at 1. change 1 with (2 ^ 0) at 2.
    rewrite !Z.pow2_bits_false by lia. cbn [negb]. rewrite orb_false_r, andb_true_r.
    reflexivity.
Qed.

(** ** What the blink routine leaves alone *)

Lemma regs_write_cc (r : reg) (v : Z) (s : state) :
  blink_scratch r = false -> regs (exec (reg_write (TC_CC 0) v) s) r = regs s r.
Proof.
  intros Hr. destruct r as [ | | | | | | | | | | | | | | | | | | | | |n];
    try discriminate Hr; try reflexivity.
  destruct n; [discriminate Hr | reflexivity].
Qed.

Lemma regs_busy_wait (r : reg) (mask : Z) (s : state) :
  regs (exec (busy_wait TC_SYNCBUSY mask) s) r = regs s r.
Proof.
  destruct (busy_wait_exec TC_SYNCBUSY mask s) as [f ->]; [discriminate | reflexivity].
Qed.

Lemma regs_read_count (r : reg) (s : state) :
  blink_scratch r = false -> regs (exec read_count s) r = regs s r.
Proof.
  intros Hr. destruct (read_count_run s) as (f & t & H & _).
  unfold exec. rewrite H. cbn [fst snd].
  destruct r as [ | | | | | | | | | | | | | | | | | | | | |n];
    try discriminate Hr; reflexivity.
Qed.

Lemma regs_if_outclr (b : bool) (r : reg) (v : Z) (s : state) :
  blink_scratch r = false ->
  regs (exec (if b then reg_write PORT_OUTCLR v else ret tt) s) r = regs s r.
Proof.
  intros Hr. destruct b; [|reflexivity].
  destruct r; try discriminate Hr; reflexivity.
Qed.

Lemma regs_if_outset (b : bool) (r : reg) (v : Z) (s : state) :
  blink_scratch r = false ->
  regs (exec (if b then reg_write PORT_OUTSET v else ret tt) s) r = regs s r.
Proof.
  intros Hr. destruct b; [|reflexivity].
  destruct r; try discriminate Hr; reflexivity.
Qed.

Lemma regs_blink_timed (cc : Z) (duty : float) (r : reg) (s : state) :
  blink_scratch r = false -> regs (exec (blink_timed cc duty) s) r = regs s r.
Proof.
  intros Hr. unfold blink_timed. rewrite !exec_bind.
  rewrite regs_if_outset, exec_read_cc, regs_read_count by exact Hr.
  rewrite regs_if_outclr, exec_read_cc, regs_read_count by exact Hr.
  rewrite regs_busy_wait. apply regs_write_cc. exact Hr.
Qed.

Lemma out_after_other_bits (lt gt : bool) (o i : Z) :
  i <> 15 -> Z.testbit (out_after lt gt o) i = Z.testbit o i.
Proof.
  intros Hi. unfold out_after.
  destruct (Z.neg_nonneg_cases i) as [Hneg | Hpos].
  - rewrite !Z.testbit_neg_r by exact Hneg. reflexivity.
  - destruct lt, gt;
      rewrite ?Z.lor_spec, ?Z.land_spec, ?Z.lnot_spec, ?testbit_bit by lia;
      replace (15 =? i) with false by (symmetry; apply Z.eqb_neq; lia);
      cbn [negb]; rewrite ?orb_false_r, ?andb_true_r; reflexivity.
Qed.

Lemma blink_modify_out (s : state) :
  exists lt gt,
    regs (exec platform_blink_modify s) PORT_OUT = out_after lt gt (regs s PORT_OUT)
    /\ currentSetting (exec platform_blink_modify s) = currentSetting s.
Proof.
  destruct (currentSetting s) eqn:Hs.
  - exists true, false. rewrite blink_modify_exec, Hs.
    destruct (stage_outclr (bit 15) s s _ _ _ (stage_refl s)) as (Ho & _ & _ & _ & _ & Hb).
    split; [exact Ho | rewrite Hb; exact Hs].
  - destruct (blink_modify_timed_float s SLOW eq_refl Hs) as [(Ho & _ & _ & _ & _ & Hb) _].
    do 2 eexists. split; [exact Ho | rewrite Hb; exact Hs].
  - destruct (blink_modify_timed_float s MEDIUM eq_refl Hs) as [(Ho & _ & _ & _ & _ & Hb) _].
    do 2 eexists. split; [exact Ho | rewrite Hb; exact Hs].
  - destruct (blink_modify_timed_float s FAST eq_refl Hs) as [(Ho & _ & _ & _ & _ & Hb) _].
    do 2 eexists. split; [exact Ho | rewrite Hb; exact Hs].
  - exists false, true. rewrite blink_modify_exec, Hs.
    destruct (stage_outset (bit 15) s s _ _ _ (stage_refl s)) as (Ho & _ & _ & _ & _ & Hb).
    split; [exact Ho | rewrite Hb; exact Hs].
Qed.

(** X10: in every mode [platform_blink_modify] changes no bit of the
    output latch other than bit 15, so the level driven on PA19 and the
    pull levels survive it; beyond the latch it changes at most the compare
    register CC0, CTRLBSET and SYNCBUSY of the timer, so in particular no
    pin direction and no EIC register; and it never changes the mode. *)
Theorem blink_modify_frame (s : state) :
  let s' := exec platform_blink_modify s in
  (forall i, i <> 15 ->
     Z.testbit (regs s' PORT_OUT) i = Z.testbit (regs s PORT_OUT) i)
  /\ (forall r, blink_scratch r = false -> regs s' r = regs s r)
  /\ regs s' PORT_DIR = regs s PORT_DIR
  /\ currentSetting s' = currentSetting s.
Proof.
  intros s'. destruct (blink_modify_out s) as (lt & gt & Ho & Hb). fold s' in Ho, Hb.
  assert (Hregs : forall r, blink_scratch r = false -> regs s' r = regs s r).
  { intros r Hr. unfold s'. rewrite blink_modify_exec.
    destruct (currentSetting s); try (apply regs_blink_timed; exact Hr);
      destruct r; try discriminate Hr; reflexivity. }
  split; [|split; [exact Hregs|split; [apply Hregs; reflexivity | exact Hb]]].
  intros i Hi. rewrite Ho. apply out_after_other_bits. exact Hi.
Qed.

(** X11: in a timed mode every invocation of [platform_blink_modify]
    reprograms CC0 with the period of the current mode, whatever CC0 held,
    consumes exactly two samples of the counter, the second being the
    sample after the first, and emits at most two writes to the output
    registers, the clear before the set. *)
Theorem blink_modify_timed_footprint (s : state) (b : blink_setting) :
  timed b = true -> currentSetting s = b ->
  let s' := exec platform_blink_modify s in
  regs s' (TC_CC 0) = blink_period b
  /\ tc_reads s' = S (S (tc_reads s))
  /\ tc_count s' = tc_count s
  /\ (exists lt gt : bool,
        filter is_out_write (events platform_blink_modify s)
        = (if lt then [EvWrite PORT_OUTCLR (bit 15)] else [])
          ++ (if gt then [EvWrite PORT_OUTSET (bit 15)] else [])).
Proof.
  intros Hb Hs s'.
  destruct (blink_modify_timed_float s b Hb Hs) as [(_ & Hp & Hn & Hc & _) Hev].
  split; [exact Hp|]. split; [exact Hn|]. split; [exact Hc|].
  do 2 eexists. exact Hev.
Qed.

Lemma blink_modify_timed_footprint_witness :
  let s := set_currentSetting MEDIUM
             (set_regs (upd (TC_CC 0) 23438 (fun _ => 0))
                       (reset_state 3 (fun n => Z.of_nat n))) in
  timed MEDIUM = true /\ currentSetting s = MEDIUM
  /\ regs s (TC_CC 0) = 23438
  /\ regs (exec platform_blink_modify s) (TC_CC 0) = 11719
  /\ tc_reads (exec platform_blink_modify s) = 2%nat.
Proof.
  intros s. do 3 (split; [reflexivity|]).
  pose proof (blink_modify_timed_footprint s MEDIUM eq_refl eq_refl) as (H1 & H2 & _).
  split; [exact H1 | exact H2].
Defined.



(** ** The EIC over the initialisation *)

Lemma eic_writes_poll (r : reg) (t : list event) :
  Forall (poll_event r) t -> filter is_eic_write t = [].
Proof.
  induction 1 as [|e t He _ IH]; [reflexivity|].
  cbn [filter]. rewrite IH. destruct He as [[v ->] | ->]; reflexivity.
Qed.

Lemma eic_writes_spin_on (r : reg) (busy : Z -> bool) (s : state) :
  r <> TC_COUNT ->
  filter is_eic_write (events (spin_on r busy (emit EvNop)) s) = [].
Proof.
  intros Hr. destruct (spin_on_run r busy s Hr) as (f & t & H & Ht).
  unfold events. rewrite H. exact (eic_writes_poll r t Ht).
Qed.

Lemma eic_writes_early (s : state) :
  filter is_eic_write (events EIC_init_early s)
  = [EvWrite EIC_CTRLA 1; EvWrite EIC_DPRESCALER 15].
Proof.
  unfold EIC_init_early. rewrite !events_bind, !filter_app.
  rewrite !eic_writes_spin_on by discriminate. reflexivity.
Qed.

Lemma eic_writes_late (s : state) :
  filter is_eic_write (events EIC_init_late s)
  = [EvWrite EIC_CTRLA (Z.lor (regs s EIC_CTRLA) 2)].
Proof.
  unfold EIC_init_late. rewrite !events_bind, !filter_app.
  rewrite !eic_writes_spin_on by discriminate. reflexivity.
Qed.

Lemma eic_writes_PB_init (s : state) :
  filter is_eic_write (events PB_init s)
  = [EvWrite EIC_DEBOUNCEN (Z.lor (regs s EIC_DEBOUNCEN) (bit 2));
     EvWrite EIC_CONFIG0 (Z.land (regs s EIC_CONFIG0) 0xFFFFF0FF);
     EvWrite EIC_CONFIG0 (Z.lor (Z.land (regs s EIC_CONFIG0) 0xFFFFF0FF) 0xB00);
     EvWrite EIC_INTENSET 4].
Proof. reflexivity. Qed.

(** X13: of the register writes that the routines of gpio.c make during
    [platform_init], whatever state it starts from, those to the EIC come
    in this order: the software reset first, the debounce prescaler, then
    the debouncer, the sense field (cleared, then set to 0xB) and the
    interrupt enable of line 2, and as the last one the single write that
    sets the enable bit of CTRLA.  Every configuration write lies between
    the reset and the enable. *)
Theorem platform_init_eic_window (extern : routine -> state -> state) (s : state) :
  exists d c e,
    filter is_eic_write (events (platform_init extern) s)
    = [EvWrite EIC_CTRLA 1; EvWrite EIC_DPRESCALER 15;
       EvWrite EIC_DEBOUNCEN d;
       EvWrite EIC_CONFIG0 (Z.land c 0xFFFFF0FF);
       EvWrite EIC_CONFIG0 (Z.lor (Z.land c 0xFFFFF0FF) 0xB00);
       EvWrite EIC_INTENSET 4;
       EvWrite EIC_CTRLA e]
    /\ Z.testbit d 2 = true
    /\ Z.testbit e 1 = true.
Proof.
  unfold platform_init, call. rewrite !events_bind, !filter_app.
  rewrite eic_writes_early, eic_writes_late, eic_writes_PB_init.
  do 3 eexists. split; [reflexivity|]. split.
  - rewrite Z.lor_spec. change (Z.testbit (bit 2) 2) with true. apply orb_true_r.
  - rewrite Z.lor_spec. change (Z.testbit 2 1) with true. apply orb_true_r.
Qed.
